(** * Model addressing layer of the server package (server/modelpath.go)

    A shallow embedding of the Go source: the identifier parser
    [ParseModelPath], the validator [Validate], the canonical formatters
    [GetFullTagname] and [GetShortTagname], and the path resolvers
    [modelsDir], [GetManifestPath] and [GetBlobsPath].

    Go strings are byte sequences; they are modelled by [string], whose
    characters are the 256 values of [ascii].  The functions of the Go
    standard library that the source calls are modelled first, each in a
    module named after its Go package. *)

From Stdlib Require Import String Ascii List Bool Arith NArith Lia.
Import ListNotations.
Local Open Scope list_scope.
Local Open Scope string_scope.

(** ** Package [strings] *)

Module strings.

(** [s[:n]] *)
Fixpoint take (n : nat) (s : string) : string :=
  match n, s with
  | S n', String c s' => String c (take n' s')
  | _, _ => ""
  end.

(** [s[n:]] *)
Fixpoint drop (n : nat) (s : string) : string :=
  match n, s with
  | S n', String _ s' => drop n' s'
  | _, _ => s
  end.

Fixpoint HasPrefix (s prefix : string) {struct prefix} : bool :=
  match prefix with
  | "" => true
  | String p prefix' =>
      match s with
      | "" => false
      | String c s' => Ascii.eqb c p && HasPrefix s' prefix'
      end
  end.

(** [Index] returns the index of the first instance of [substr] in [s];
    [None] stands for Go's [-1]. *)
Fixpoint Index (s substr : string) : option nat :=
  if HasPrefix s substr then Some 0
  else match s with
       | "" => None
       | String _ s' => option_map S (Index s' substr)
       end.

Definition Contains (s substr : string) : bool :=
  match Index s substr with
  | Some _ => true
  | None => false
  end.

(** [Cut] slices [s] around the first instance of [sep]. *)
Definition Cut (s sep : string) : string * string * bool :=
  match Index s sep with
  | Some i => (take i s, drop (i + String.length sep) s, true)
  | None => (s, "", false)
  end.

(** The loop of [genSplit]: at most [n] pieces are cut off before the
    remainder is stored as the last element. *)
Fixpoint genSplit (n : nat) (s sep : string) : list string :=
  match n with
  | 0 => [s]
  | S n' =>
      match Index s sep with
      | None => [s]
      | Some m => take m s :: genSplit n' (drop (m + String.length sep) s) sep
      end
  end.

(** [Split] for a non-empty separator, the only way the package calls
    it.  Every round of the loop consumes at least one byte, so
    [length s] rounds reach every occurrence of [sep]. *)
Definition Split (s sep : string) : list string :=
  genSplit (String.length s) s sep.

(** The loop of [Replace]: every non-overlapping instance of [old],
    from the left, is replaced by [new]. *)
Fixpoint replaceLoop (n : nat) (s old new : string) : string :=
  match n with
  | 0 => s
  | S n' =>
      match Index s old with
      | None => s
      | Some j => take j s ++ new ++ replaceLoop n' (drop (j + String.length old) s) old new
      end
  end.

(** [ReplaceAll] for a non-empty [old], the only way the package calls
    it. *)
Definition ReplaceAll (s old new : string) : string :=
  if String.eqb old new then s else replaceLoop (String.length s) s old new.

End strings.

(** ** Errors

    Package [os] produces its own error values; the sentinel errors of
    package [server] are values of their own, compared by identity in Go,
    hence one constructor each. *)

Module oserror.

Inductive Error : Type :=
| errorString (s : string)
| PathError (Op Path Err : string).

Definition message (e : Error) : string :=
  match e with
  | errorString s => s
  | PathError op path err => op ++ " " ++ path ++ ": " ++ err
  end.

End oserror.

Inductive error : Type :=
| ErrInvalidImageFormat
| ErrInvalidProtocol
| ErrInsecureProtocol
| ErrInvalidDigestFormat
| errModelPathInvalid
| wrapError (msg : string) (err : error)
| osError (e : oserror.Error).

(** The method [Error()]. *)
Definition Error (e : error) : string :=
  match e with
  | ErrInvalidImageFormat => "invalid image format"
  | ErrInvalidProtocol => "invalid protocol scheme"
  | ErrInsecureProtocol => "insecure protocol http"
  | ErrInvalidDigestFormat => "invalid digest format"
  | errModelPathInvalid => "invalid model path"
  | wrapError msg _ => msg
  | osError e => oserror.message e
  end.

Definition Unwrap (e : error) : option error :=
  match e with
  | wrapError _ err => Some err
  | _ => None
  end.

(** ** Package [fmt] *)

Module fmt.

(** [Sprintf] restricted to the verb [%s] over string operands, which is
    all the package uses.  An operand is consumed by each verb, left to
    right. *)
Fixpoint Sprintf (format : string) (a : list string) : string :=
  match format with
  | String "%" (String "s" format') =>
      match a with
      | x :: a' => x ++ Sprintf format' a'
      | [] => "%!s(MISSING)" ++ Sprintf format' []
      end
  | String c format' => String c (Sprintf format' a)
  | "" => ""
  end.

(** The format of [Errorf] with its verb [%w] read as [%s]. *)
Fixpoint verbW (format : string) : string :=
  match format with
  | String "%" (String "w" format') => String "%" (String "s" (verbW format'))
  | String c format' => String c (verbW format')
  | "" => ""
  end.

(** [Errorf] with exactly one [%w] operand: the result wraps [err] and
    its message is the formatted text. *)
Definition Errorf (format : string) (err : error) : error :=
  wrapError (Sprintf (verbW format) [Error err]) err.

End fmt.

(** ** Package [os]: the part that does not touch the process state *)

Inductive GOOS : Type := unix | windows.

Module os.

Definition PathSeparator (goos : GOOS) : ascii :=
  match goos with
  | unix => "/"%char
  | windows => "\"%char
  end.

End os.

(** ** Package [server]: addresses *)

Record ModelPath : Type := mkModelPath {
  ProtocolScheme : string;
  Registry : string;
  Namespace : string;
  Repository : string;
  Tag : string
}.

Definition DefaultRegistry : string := "registry.ollama.ai".
Definition DefaultNamespace : string := "library".
Definition DefaultTag : string := "latest".
Definition DefaultProtocolScheme : string := "https".

Definition set_ProtocolScheme (v : string) (mp : ModelPath) : ModelPath :=
  mkModelPath v (Registry mp) (Namespace mp) (Repository mp) (Tag mp).
Definition set_Registry (v : string) (mp : ModelPath) : ModelPath :=
  mkModelPath (ProtocolScheme mp) v (Namespace mp) (Repository mp) (Tag mp).
Definition set_Namespace (v : string) (mp : ModelPath) : ModelPath :=
  mkModelPath (ProtocolScheme mp) (Registry mp) v (Repository mp) (Tag mp).
Definition set_Repository (v : string) (mp : ModelPath) : ModelPath :=
  mkModelPath (ProtocolScheme mp) (Registry mp) (Namespace mp) v (Tag mp).
Definition set_Tag (v : string) (mp : ModelPath) : ModelPath :=
  mkModelPath (ProtocolScheme mp) (Registry mp) (Namespace mp) (Repository mp) v.

Definition ParseModelPath (goos : GOOS) (name : string) : ModelPath :=
  let mp := {| ProtocolScheme := DefaultProtocolScheme;
               Registry := DefaultRegistry;
               Namespace := DefaultNamespace;
               Repository := "";
               Tag := DefaultTag |} in
  let '(before, after, found) := strings.Cut name "://" in
  let mp := if found then set_ProtocolScheme before mp else mp in
  let name := if found then after else name in
  let name := strings.ReplaceAll name (String (os.PathSeparator goos) "") "/" in
  let parts := strings.Split name "/" in
  let mp :=
    match parts with
    | [p0; p1; p2] => set_Repository p2 (set_Namespace p1 (set_Registry p0 mp))
    | [p0; p1] => set_Repository p1 (set_Namespace p0 mp)
    | [p0] => set_Repository p0 mp
    | _ => mp
    end in
  let '(repo, tag, found) := strings.Cut (Repository mp) ":" in
  if found then set_Tag tag (set_Repository repo mp) else mp.

Definition GetNamespaceRepository (mp : ModelPath) : string :=
  fmt.Sprintf "%s/%s" [Namespace mp; Repository mp].

Definition GetFullTagname (mp : ModelPath) : string :=
  fmt.Sprintf "%s/%s/%s:%s" [Registry mp; Namespace mp; Repository mp; Tag mp].

Definition GetShortTagname (mp : ModelPath) : string :=
  if String.eqb (Registry mp) DefaultRegistry then
    if String.eqb (Namespace mp) DefaultNamespace then
      fmt.Sprintf "%s:%s" [Repository mp; Tag mp]
    else
      fmt.Sprintf "%s/%s:%s" [Namespace mp; Repository mp; Tag mp]
  else
    fmt.Sprintf "%s/%s/%s:%s" [Registry mp; Namespace mp; Repository mp; Tag mp].

Definition Validate (mp : ModelPath) : option error :=
  if String.eqb (Repository mp) "" then
    Some (fmt.Errorf "%w: model repository name is required" errModelPathInvalid)
  else if strings.Contains (Tag mp) ":" then
    Some (fmt.Errorf "%w: ':' (colon) is not allowed in tag names" errModelPathInvalid)
  else
    None.

Record URL : Type := mkURL { Scheme : string; Host : string }.

Definition BaseURL (mp : ModelPath) : URL :=
  {| Scheme := ProtocolScheme mp; Host := Registry mp |}.

(** ** Package [regexp]

    The syntax tree of a pattern, with the anchors as nodes of their own,
    and [MatchString], which reports whether the text contains any match
    of the pattern.  Only the operators without iteration are modelled. *)

Module regexp.

Inductive Regexp : Type :=
| EmptyMatch
| BeginText                                 (* ^ *)
| EndText                                   (* $ *)
| Literal (s : string)
| CharClass (ranges : list (ascii * ascii)) (* [lo-hi...] *)
| Concat (r1 r2 : Regexp)
| Alternate (r1 r2 : Regexp)
| Repeat (n : nat) (r : Regexp).            (* r{n} *)

Definition inRange (c : ascii) (range : ascii * ascii) : bool :=
  Nat.leb (nat_of_ascii (fst range)) (nat_of_ascii c)
  && Nat.leb (nat_of_ascii c) (nat_of_ascii (snd range)).

Definition inClass (c : ascii) (ranges : list (ascii * ascii)) : bool :=
  existsb (inRange c) ranges.

Definition isEmpty (s : string) : bool :=
  match s with
  | "" => true
  | _ => false
  end.

(** [matchHere r atStart s k]: some match of [r] starts at the head of
    [s] and the continuation [k] accepts what follows it.  [atStart]
    says that the head of [s] is the beginning of the text. *)
Fixpoint matchHere (r : Regexp) (atStart : bool) (s : string)
         (k : bool -> string -> bool) {struct r} : bool :=
  match r with
  | EmptyMatch => k atStart s
  | BeginText => atStart && k atStart s
  | EndText => isEmpty s && k atStart s
  | Literal l =>
      strings.HasPrefix s l
      && k (atStart && isEmpty l) (strings.drop (String.length l) s)
  | CharClass ranges =>
      match s with
      | "" => false
      | String c s' => inClass c ranges && k false s'
      end
  | Concat r1 r2 => matchHere r1 atStart s (fun b s' => matchHere r2 b s' k)
  | Alternate r1 r2 => matchHere r1 atStart s k || matchHere r2 atStart s k
  | Repeat n r' =>
      (fix rep (n : nat) (b : bool) (s : string) : bool :=
         match n with
         | 0 => k b s
         | S n' => matchHere r' b s (rep n')
         end) n atStart s
  end.

Fixpoint search (r : Regexp) (atStart : bool) (s : string) : bool :=
  matchHere r atStart s (fun _ _ => true)
  || match s with
     | "" => false
     | String _ s' => search r false s'
     end.

Definition MatchString (re : Regexp) (s : string) : bool :=
  search re true s.

End regexp.

(** [regexp.MustCompile("^sha256[:-][0-9a-fA-F]{64}$")] *)
Definition blobDigestRegEx : regexp.Regexp :=
  regexp.Concat regexp.BeginText
    (regexp.Concat (regexp.Literal "sha256")
       (regexp.Concat (regexp.CharClass [(":"%char, ":"%char); ("-"%char, "-"%char)])
          (regexp.Concat
             (regexp.Repeat 64
                (regexp.CharClass [("0"%char, "9"%char); ("a"%char, "f"%char);
                                   ("A"%char, "F"%char)]))
             regexp.EndText))).

(** ** The host: process environment, file system and path syntax

    What the package asks of packages [os] and [path/filepath] depends on
    the machine the program runs on.  [W] is the state of the process and
    of its file system; the environment and the home directory are read
    from it, [MkdirAll] may change it and may fail. *)

Record Platform (W : Type) : Type := mkPlatform {
  LookupEnv : string -> W -> option string;
  UserHomeDir : W -> string * option oserror.Error;
  MkdirAll : string -> N -> W -> option oserror.Error * W;
  Join : list string -> string
}.

Arguments LookupEnv {W} _ _ _.
Arguments UserHomeDir {W} _ _.
Arguments MkdirAll {W} _ _ _ _.
Arguments Join {W} _ _.

(** ** Package [server]: paths *)

Section Resolver.

Context {W : Type} (host : Platform W).

Definition modelsDir (w : W) : string * option error :=
  match LookupEnv host "OLLAMA_MODELS" w with
  | Some models => (models, None)
  | None =>
      let '(home, err) := UserHomeDir host w in
      match err with
      | Some e => ("", Some (osError e))
      | None => (Join host [home; ".ollama"; "models"], None)
      end
  end.

(** The method [(mp ModelPath) GetManifestPath()]. *)
Definition ModelPath_GetManifestPath (mp : ModelPath) (w : W)
  : (string * option error) * W :=
  let '(dir, err) := modelsDir w in
  match err with
  | Some e => (("", Some e), w)
  | None =>
      ((Join host [dir; "manifests"; Registry mp; Namespace mp; Repository mp; Tag mp],
        None), w)
  end.

(** The function [GetManifestPath()]. *)
Definition GetManifestPath (w : W) : (string * option error) * W :=
  let '(dir, err) := modelsDir w in
  match err with
  | Some e => (("", Some e), w)
  | None =>
      let path := Join host [dir; "manifests"] in
      let '(err, w) := MkdirAll host path 493%N w in
      match err with
      | Some e => (("", Some (osError e)), w)
      | None => ((path, None), w)
      end
  end.

Definition GetBlobsPath (digest : string) (w : W) : (string * option error) * W :=
  let '(dir, err) := modelsDir w in
  match err with
  | Some e => (("", Some e), w)
  | None =>
      let dir := Join host [dir; "blobs"] in
      let checked :=
        if negb (String.eqb digest "") then
          if negb (regexp.MatchString blobDigestRegEx digest) then
            inl ErrInvalidDigestFormat
          else
            let digest := strings.ReplaceAll digest ":" "-" in
            inr (Join host [dir; digest])
        else
          inr dir in
      match checked with
      | inl e => (("", Some e), w)
      | inr path =>
          let '(err, w) := MkdirAll host dir 493%N w in
          match err with
          | Some e => (("", Some (osError e)), w)
          | None => ((path, None), w)
          end
      end
  end.

End Resolver.

(** ** A Unix host

    One host to run the resolvers on: an environment as a list of
    bindings, a file system as the lists of its directories and of its
    other files, and the path syntax of [path/filepath] on Unix. *)

Module unixhost.

Record World : Type := mkWorld {
  environ : list (string * string);
  dirs : list string;
  files : list string
}.

Fixpoint lookup (key : string) (env : list (string * string)) : option string :=
  match env with
  | [] => None
  | (k, v) :: env' => if String.eqb k key then Some v else lookup key env'
  end.

Definition LookupEnv (key : string) (w : World) : option string :=
  lookup key (environ w).

Definition UserHomeDir (w : World) : string * option oserror.Error :=
  match lookup "HOME" (environ w) with
  | Some (String c v) => (String c v, None)
  | _ => ("", Some (oserror.errorString "$HOME is not defined"))
  end.

(** One step of [Clean] over the path elements; the elements kept so
    far are held last first. *)
Definition cleanStep (rooted : bool) (kept : list string) (elem : string)
  : list string :=
  if String.eqb elem "" || String.eqb elem "." then kept
  else if String.eqb elem ".." then
    match kept with
    | top :: kept' => if String.eqb top ".." then elem :: kept else kept'
    | [] => if rooted then [] else [elem]
    end
  else elem :: kept.

Definition Clean (path : string) : string :=
  let rooted := strings.HasPrefix path "/" in
  let kept := fold_left (cleanStep rooted) (strings.Split path "/") [] in
  let out := (if rooted then "/" else "") ++ String.concat "/" (rev kept) in
  if String.eqb out "" then "." else out.

Fixpoint Join (elem : list string) : string :=
  match elem with
  | [] => ""
  | e :: elem' =>
      if String.eqb e "" then Join elem' else Clean (String.concat "/" elem)
  end.

(** The directories that [MkdirAll] walks through, outermost first. *)
Fixpoint chain (base : string) (elems : list string) : list string :=
  match elems with
  | [] => []
  | e :: elems' =>
      let next :=
        if String.eqb base "" || String.eqb base "/" then base ++ e
        else base ++ "/" ++ e in
      next :: chain next elems'
  end.

Definition ancestors (path : string) : list string :=
  let p := Clean path in
  let elems := filter (fun e => negb (String.eqb e "")) (strings.Split p "/") in
  chain (if strings.HasPrefix p "/" then "/" else "") elems.

Definition mem (p : string) (l : list string) : bool :=
  existsb (String.eqb p) l.

Definition MkdirAll (path : string) (perm : N) (w : World)
  : option oserror.Error * World :=
  match find (fun a => mem a (files w)) (ancestors path) with
  | Some a => (Some (oserror.PathError "mkdir" a "not a directory"), w)
  | None =>
      (None,
       mkWorld (environ w)
               (filter (fun a => negb (mem a (dirs w))) (ancestors path) ++ dirs w)
               (files w))
  end.

Definition host : Platform World := mkPlatform World LookupEnv UserHomeDir MkdirAll Join.

Definition isDir (path : string) (w : World) : bool := mem path (dirs w).

End unixhost.

(** ** The two halves of [ParseModelPath]

    The address as it stands when the switch over the segments is done,
    before the repository is cut at its colon, and that last cut. *)

Definition parseSegments (goos : GOOS) (name : string) : ModelPath :=
  let mp := {| ProtocolScheme := DefaultProtocolScheme;
               Registry := DefaultRegistry;
               Namespace := DefaultNamespace;
               Repository := "";
               Tag := DefaultTag |} in
  let '(before, after, found) := strings.Cut name "://" in
  let mp := if found then set_ProtocolScheme before mp else mp in
  let name := if found then after else name in
  let name := strings.ReplaceAll name (String (os.PathSeparator goos) "") "/" in
  let parts := strings.Split name "/" in
  match parts with
  | [p0; p1; p2] => set_Repository p2 (set_Namespace p1 (set_Registry p0 mp))
  | [p0; p1] => set_Repository p1 (set_Namespace p0 mp)
  | [p0] => set_Repository p0 mp
  | _ => mp
  end.

Definition cutTag (mp : ModelPath) : ModelPath :=
  let '(repo, tag, found) := strings.Cut (Repository mp) ":" in
  if found then set_Tag tag (set_Repository repo mp) else mp.

(** ** The three shapes of a name *)

Definition shapeRepositoryTag (mp : ModelPath) : string :=
  Repository mp ++ ":" ++ Tag mp.

Definition shapeNamespaceRepositoryTag (mp : ModelPath) : string :=
  Namespace mp ++ "/" ++ Repository mp ++ ":" ++ Tag mp.

Definition shapeRegistryNamespaceRepositoryTag (mp : ModelPath) : string :=
  Registry mp ++ "/" ++ Namespace mp ++ "/" ++ Repository mp ++ ":" ++ Tag mp.

(** ** The end of [GetManifestPath] and of [GetBlobsPath]

    Create the directory [dir] with mode [0o755], then return [path], or
    the error of the creation. *)

Definition createThenReturn {W : Type} (host : Platform W) (dir path : string)
           (w : W) : (string * option error) * W :=
  let '(err, w) := MkdirAll host dir 493%N w in
  match err with
  | Some e => (("", Some (osError e)), w)
  | None => ((path, None), w)
  end.

(** ** A machine to run the resolvers on *)

Definition exampleWorld : unixhost.World :=
  unixhost.mkWorld [("HOME", "/home/ollama"); ("PATH", "/usr/bin")]
                   ["/home"; "/home/ollama"] [].

Definition exampleOverride : unixhost.World :=
  unixhost.mkWorld [("OLLAMA_MODELS", "/srv/models"); ("HOME", "/home/ollama")]
                   [] ["/srv/models/blobs"].

Definition exampleHomeless : unixhost.World :=
  unixhost.mkWorld [("PATH", "/usr/bin")] [] [].

Definition exampleHex : string :=
  "0123456789abcdefABCDEF0123456789abcdefABCDEF0123456789abcdefABCD".

(** * Specification vocabulary *)

(** ** Occurrences of a separator in a string, stated without the
       functions of package [strings] *)

(** [sep] occurs in [s] between [a] and [b], and nowhere further left. *)
Definition FirstCut (s sep a b : string) : Prop :=
  s = a ++ sep ++ b /\
  forall a' b', s = a' ++ sep ++ b' -> String.length a <= String.length a'.

Definition NoOccurrence (s sep : string) : Prop :=
  forall a b, s <> a ++ sep ++ b.

(** The byte [c] occurs in [s]. *)
Fixpoint hasByte (c : ascii) (s : string) : bool :=
  match s with
  | "" => false
  | String x s' => Ascii.eqb x c || hasByte c s'
  end.

(** [s] with [f] applied to each of its bytes. *)
Fixpoint mapBytes (f : ascii -> ascii) (s : string) : string :=
  match s with
  | "" => ""
  | String x s' => String (f x) (mapBytes f s')
  end.

Fixpoint allBytes (p : ascii -> bool) (s : string) : bool :=
  match s with
  | "" => true
  | String x s' => p x && allBytes p s'
  end.

Definition byte (c : ascii) : string := String c "".

(** [replaceByte old new] is what [ReplaceAll] does to each byte. *)
Definition replaceByte (old new x : ascii) : ascii :=
  if Ascii.eqb x old then new else x.

Definition byteFree (c : ascii) (s : string) : Prop := hasByte c s = false.

(** [l] lists the segments of [s] that the byte [c] separates: none of
    them holds [c] and, joined by [c], they are [s]. *)
Definition Segments (c : ascii) (s : string) (l : list string) : Prop :=
  l <> [] /\ Forall (byteFree c) l /\ s = String.concat (byte c) l.

(** What [ParseModelPath] does to the native path separators. *)
Definition normalize (goos : GOOS) (s : string) : string :=
  mapBytes (replaceByte (os.PathSeparator goos) "/") s.

(** Three, two or one segments name the registry, the namespace and the
    repository from the right; any other number of segments names
    nothing. *)
Definition assignSegments (segs : list string) (reg ns repo : string) : Prop :=
  match segs with
  | [a; b; c] => reg = a /\ ns = b /\ repo = c
  | [b; c] => reg = DefaultRegistry /\ ns = b /\ repo = c
  | [c] => reg = DefaultRegistry /\ ns = DefaultNamespace /\ repo = c
  | _ => reg = DefaultRegistry /\ ns = DefaultNamespace /\ repo = ""
  end.

(** The same with nothing said about any other number of segments. *)
Definition assignSegments123 (segs : list string) (reg ns repo : string) : Prop :=
  match segs with
  | [a; b; c] => reg = a /\ ns = b /\ repo = c
  | [b; c] => reg = DefaultRegistry /\ ns = b /\ repo = c
  | [c] => reg = DefaultRegistry /\ ns = DefaultNamespace /\ repo = c
  | _ => True
  end.

(** The steps of the parser as a relation between the raw string and the
    address: cut at the first [://], split what [norm] makes of the
    remainder on [/], assign the segments, cut the repository at its
    first colon. *)
Definition ParseSteps
           (assign : list string -> string -> string -> string -> Prop)
           (norm : string -> string) (raw : string) (mp : ModelPath) : Prop :=
  exists rest segs repo0,
    (FirstCut raw "://" (ProtocolScheme mp) rest
     \/ (NoOccurrence raw "://" /\ rest = raw
         /\ ProtocolScheme mp = DefaultProtocolScheme))
    /\ Segments "/" (norm rest) segs
    /\ assign segs (Registry mp) (Namespace mp) repo0
    /\ (FirstCut repo0 ":" (Repository mp) (Tag mp)
        \/ (NoOccurrence repo0 ":" /\ Repository mp = repo0
            /\ Tag mp = DefaultTag)).

(** The two errors of [Validate]. *)
Definition errRepositoryRequired : error :=
  wrapError "invalid model path: model repository name is required"
            errModelPathInvalid.

Definition errColonInTag : error :=
  wrapError "invalid model path: ':' (colon) is not allowed in tag names"
            errModelPathInvalid.

(** What stands in a short name before the repository. *)
Definition shortPrefix (mp : ModelPath) : string :=
  if String.eqb (Registry mp) DefaultRegistry then
    if String.eqb (Namespace mp) DefaultNamespace then ""
    else Namespace mp ++ "/"
  else Registry mp ++ "/" ++ Namespace mp ++ "/".

(** ** Digests, as the specification words them *)

Definition hexDigit (c : ascii) : bool :=
  hasByte c "0123456789abcdefABCDEF".

(** [sha256], a colon or a dash, and 64 hexadecimal digits of either
    case. *)
Definition Sha256Digest (digest : string) : Prop :=
  exists sep hex,
    digest = "sha256" ++ String sep hex
    /\ (sep = ":"%char \/ sep = "-"%char)
    /\ String.length hex = 64
    /\ allBytes hexDigit hex = true.

(** ** Fields without separators *)

Fixpoint countByte (c : ascii) (s : string) : nat :=
  match s with
  | "" => 0
  | String x s' => (if Ascii.eqb x c then 1 else 0) + countByte c s'
  end.

(** [s] holds neither a slash nor the native path separator. *)
Definition separatorFree (goos : GOOS) (s : string) : Prop :=
  byteFree "/" s /\ byteFree (os.PathSeparator goos) s.

(** No field but the scheme holds a separator, and the repository holds
    no colon. *)
Definition WellFormed (goos : GOOS) (mp : ModelPath) : Prop :=
  separatorFree goos (Registry mp)
  /\ separatorFree goos (Namespace mp)
  /\ separatorFree goos (Repository mp)
  /\ separatorFree goos (Tag mp)
  /\ byteFree ":" (Repository mp).

(** * Properties *)

Section StringFacts.

Lemma append_nil_r (s : string) : s ++ "" = s.
Proof. induction s as [|c s IH]; simpl; [reflexivity | now rewrite IH]. Qed.

Lemma append_assoc (a b c : string) : (a ++ b) ++ c = a ++ (b ++ c).
Proof. induction a as [|x a IH]; simpl; [reflexivity | now rewrite IH]. Qed.

Lemma length_append (a b : string) :
  String.length (a ++ b) = String.length a + String.length b.
Proof. induction a as [|x a IH]; simpl; [reflexivity | now rewrite IH]. Qed.

Lemma append_inv_head (a b c : string) : a ++ b = a ++ c -> b = c.
Proof.
  induction a as [|x a IH]; simpl; intros H; [assumption|].
  injection H as H. now apply IH.
Qed.

Lemma length_zero (s : string) : String.length s = 0 -> s = "".
Proof. destruct s; simpl; [reflexivity | discriminate]. Qed.

Lemma take_app (a b : string) : strings.take (String.length a) (a ++ b) = a.
Proof. induction a as [|x a IH]; simpl; [now destruct b | now rewrite IH]. Qed.

Lemma drop_app (a b : string) : strings.drop (String.length a) (a ++ b) = b.
Proof. induction a as [|x a IH]; simpl; [now destruct b | assumption]. Qed.

Lemma drop_app_plus (a b c : string) :
  strings.drop (String.length a + String.length b) (a ++ b ++ c) = c.
Proof.
  rewrite <- length_append, <- append_assoc. apply drop_app.
Qed.

Lemma HasPrefix_app (p r : string) : strings.HasPrefix (p ++ r) p = true.
Proof.
  induction p as [|x p IH]; simpl; [reflexivity|].
  now rewrite Ascii.eqb_refl, IH.
Qed.

Lemma HasPrefix_inv (s p : string) :
  strings.HasPrefix s p = true -> exists r, s = p ++ r.
Proof.
  revert s. induction p as [|x p IH]; intros s H; simpl in *.
  - now exists s.
  - destruct s as [|c s]; [discriminate|].
    apply andb_true_iff in H as [Hc Hp].
    apply Ascii.eqb_eq in Hc. subst c.
    destruct (IH _ Hp) as [r ->]. now exists r.
Qed.

Lemma HasPrefix_iff (s p : string) :
  strings.HasPrefix s p = true <-> exists r, s = p ++ r.
Proof.
  split; [apply HasPrefix_inv|]. intros [r ->]. apply HasPrefix_app.
Qed.

(** [Index] finds the leftmost occurrence. *)
Lemma Index_Some (s sep : string) (i : nat) :
  strings.Index s sep = Some i ->
  exists a b, FirstCut s sep a b /\ String.length a = i.
Proof.
  revert i. induction s as [|c s IH]; intros i; simpl.
  - destruct (strings.HasPrefix "" sep) eqn:Hp; [|discriminate].
    intros [= <-]. apply HasPrefix_inv in Hp as [r Hr].
    exists "", r. repeat split; simpl; auto with arith.
  - destruct (strings.HasPrefix (String c s) sep) eqn:Hp.
    + intros [= <-]. apply HasPrefix_inv in Hp as [r Hr].
      exists "", r. repeat split; simpl; auto with arith.
    + destruct (strings.Index s sep) as [j|] eqn:Hj; [|discriminate].
      simpl. intros [= <-].
      destruct (IH j eq_refl) as (a & b & [Ha Hmin] & Hlen).
      exists (String c a), b. split; [split|]; simpl.
      * now rewrite Ha.
      * intros a' b' H'. destruct a' as [|c' a'].
        -- simpl in H'. rewrite H' in Hp.
           now rewrite HasPrefix_app in Hp.
        -- simpl in H'. injection H' as _ H'. simpl.
           apply le_n_S. now apply Hmin with b'.
      * now rewrite Hlen.
Qed.

Lemma Index_None (s sep : string) :
  strings.Index s sep = None -> NoOccurrence s sep.
Proof.
  induction s as [|c s IH]; simpl.
  - destruct (strings.HasPrefix "" sep) eqn:Hp; [discriminate|].
    intros _ a b H. destruct a; simpl in H.
    + rewrite H in Hp. now rewrite HasPrefix_app in Hp.
    + discriminate.
  - destruct (strings.HasPrefix (String c s) sep) eqn:Hp; [discriminate|].
    destruct (strings.Index s sep) eqn:Hj; [discriminate|].
    intros _ a b H. destruct a as [|c' a]; simpl in H.
    + rewrite H in Hp. now rewrite HasPrefix_app in Hp.
    + injection H as _ H. now apply (IH eq_refl a b).
Qed.

Lemma FirstCut_unique (s sep a b a' b' : string) :
  FirstCut s sep a b -> FirstCut s sep a' b' -> a = a' /\ b = b'.
Proof.
  intros [H1 M1] [H2 M2].
  assert (Hlen : String.length a = String.length a').
  { apply Nat.le_antisymm; [eapply M1 | eapply M2]; eassumption. }
  assert (Ha : a = a').
  { rewrite <- (take_app a (sep ++ b)), <- H1, H2, Hlen. apply take_app. }
  subst a'. split; [reflexivity|].
  rewrite H1 in H2. apply append_inv_head in H2.
  now apply append_inv_head in H2.
Qed.

Lemma FirstCut_NoOccurrence (s sep a b : string) :
  FirstCut s sep a b -> NoOccurrence s sep -> False.
Proof. intros [H _] N. exact (N a b H). Qed.

(** [Cut] cuts at the leftmost occurrence and reports a missing
    separator. *)
Lemma Cut_found (s sep before after : string) :
  strings.Cut s sep = (before, after, true) -> FirstCut s sep before after.
Proof.
  unfold strings.Cut. destruct (strings.Index s sep) as [i|] eqn:Hi; [|discriminate].
  intros [= <- <-].
  destruct (Index_Some _ _ _ Hi) as (a & b & [Ha Hmin] & <-).
  assert (E1 : strings.take (String.length a) s = a) by (rewrite Ha; apply take_app).
  assert (E2 : strings.drop (String.length a + String.length sep) s = b)
    by (rewrite Ha; apply drop_app_plus).
  rewrite E1, E2. now split.
Qed.

Lemma Cut_not_found (s sep before after : string) :
  strings.Cut s sep = (before, after, false) ->
  before = s /\ after = "" /\ NoOccurrence s sep.
Proof.
  unfold strings.Cut. destruct (strings.Index s sep) as [i|] eqn:Hi; [discriminate|].
  intros [= <- <-]. repeat split. now apply Index_None.
Qed.

Lemma Cut_FirstCut (s sep a b : string) :
  FirstCut s sep a b -> strings.Cut s sep = (a, b, true).
Proof.
  intros H. destruct (strings.Cut s sep) as [[x y] [|]] eqn:E.
  - apply Cut_found in E. destruct (FirstCut_unique _ _ _ _ _ _ H E) as [-> ->].
    reflexivity.
  - apply Cut_not_found in E as (_ & _ & N).
    destruct (FirstCut_NoOccurrence _ _ _ _ H N).
Qed.

Lemma Cut_NoOccurrence (s sep : string) :
  NoOccurrence s sep -> strings.Cut s sep = (s, "", false).
Proof.
  intros N. destruct (strings.Cut s sep) as [[x y] [|]] eqn:E.
  - apply Cut_found in E. destruct (FirstCut_NoOccurrence _ _ _ _ E N).
  - apply Cut_not_found in E as (-> & -> & _). reflexivity.
Qed.

End StringFacts.

(** ** One-byte separators *)

Section ByteFacts.

Variable c : ascii.

Lemma hasByte_app (a b : string) :
  hasByte c (a ++ b) = hasByte c a || hasByte c b.
Proof.
  induction a as [|x a IH]; simpl; [reflexivity|].
  now rewrite IH, orb_assoc.
Qed.

Lemma hasByte_split (s : string) :
  hasByte c s = true -> exists a b, s = a ++ byte c ++ b.
Proof.
  induction s as [|x s IH]; simpl; [discriminate|].
  destruct (Ascii.eqb_spec x c) as [->|Hx]; simpl.
  - intros _. now exists "", s.
  - intros H. destruct (IH H) as (a & b & ->). now exists (String x a), b.
Qed.

Lemma NoOccurrence_byteFree (s : string) :
  NoOccurrence s (byte c) <-> byteFree c s.
Proof.
  unfold byteFree. split.
  - intros N. destruct (hasByte c s) eqn:H; [|reflexivity].
    destruct (hasByte_split _ H) as (a & b & E). destruct (N a b E).
  - intros H a b E. rewrite E, hasByte_app in H. simpl in H.
    rewrite Ascii.eqb_refl in H. simpl in H.
    now rewrite orb_true_r in H.
Qed.

Lemma append_split (a x a' y : string) :
  a ++ x = a' ++ y -> String.length a' <= String.length a ->
  exists m, a = a' ++ m /\ y = m ++ x.
Proof.
  revert a. induction a' as [|h a' IH]; intros a H L; simpl in *.
  - now exists a.
  - destruct a as [|h0 a]; simpl in *; [lia|].
    injection H as -> H.
    destruct (IH a H ltac:(lia)) as (m & -> & ->). now exists m.
Qed.

Lemma FirstCut_byte (a b : string) :
  byteFree c a -> FirstCut (a ++ byte c ++ b) (byte c) a b.
Proof.
  intros Ha. split; [reflexivity|]. intros a' b' E.
  destruct (Nat.le_gt_cases (String.length a) (String.length a')) as [L|L];
    [assumption|].
  destruct (append_split _ _ _ _ E ltac:(lia)) as (m & -> & Em).
  destruct m as [|h m].
  - rewrite length_append in L. simpl in L. lia.
  - simpl in Em. injection Em as <- _.
    unfold byteFree in Ha. rewrite hasByte_app in Ha. simpl in Ha.
    rewrite Ascii.eqb_refl in Ha. simpl in Ha.
    now rewrite orb_true_r in Ha.
Qed.

Lemma FirstCut_byte_inv (s a b : string) :
  FirstCut s (byte c) a b -> s = a ++ byte c ++ b /\ byteFree c a.
Proof.
  intros [E M]. split; [assumption|].
  unfold byteFree. destruct (hasByte c a) eqn:H; [|reflexivity].
  destruct (hasByte_split _ H) as (a1 & a2 & ->).
  rewrite !append_assoc in E. specialize (M _ _ E).
  rewrite length_append in M. simpl in M. lia.
Qed.

Lemma Cut_byte (a b : string) :
  byteFree c a -> strings.Cut (a ++ byte c ++ b) (byte c) = (a, b, true).
Proof. intros H. apply Cut_FirstCut. now apply FirstCut_byte. Qed.

Lemma Cut_byteFree (s : string) :
  byteFree c s -> strings.Cut s (byte c) = (s, "", false).
Proof. intros H. apply Cut_NoOccurrence. now apply NoOccurrence_byteFree. Qed.

Lemma Index_byte (a b : string) :
  byteFree c a ->
  strings.Index (a ++ byte c ++ b) (byte c) = Some (String.length a).
Proof.
  intros H. destruct (strings.Index (a ++ byte c ++ b) (byte c)) as [i|] eqn:E.
  - destruct (Index_Some _ _ _ E) as (a' & b' & F & <-).
    destruct (FirstCut_unique _ _ _ _ _ _ F (FirstCut_byte a b H)) as [-> _].
    reflexivity.
  - apply Index_None in E. destruct (E a b eq_refl).
Qed.

Lemma Index_byteFree (s : string) :
  byteFree c s -> strings.Index s (byte c) = None.
Proof.
  intros H. destruct (strings.Index s (byte c)) as [i|] eqn:E; [|reflexivity].
  destruct (Index_Some _ _ _ E) as (a & b & F & _).
  apply NoOccurrence_byteFree in H.
  destruct (FirstCut_NoOccurrence _ _ _ _ F H).
Qed.

(** Every string is some byte-free prefix followed by nothing or by the
    byte and a rest. *)
Lemma byte_cases (s : string) :
  byteFree c s \/ exists a b, s = a ++ byte c ++ b /\ byteFree c a.
Proof.
  destruct (strings.Cut s (byte c)) as [[a b] [|]] eqn:E.
  - right. exists a, b. now apply FirstCut_byte_inv, Cut_found.
  - left. apply Cut_not_found in E as (_ & _ & N).
    now apply NoOccurrence_byteFree.
Qed.

Lemma Contains_byte (s : string) : strings.Contains s (byte c) = hasByte c s.
Proof.
  unfold strings.Contains. destruct (byte_cases s) as [H|(a & b & -> & H)].
  - now rewrite Index_byteFree, H.
  - rewrite Index_byte by assumption. rewrite hasByte_app. simpl.
    rewrite Ascii.eqb_refl. simpl. now rewrite orb_true_r.
Qed.

(** *** [Split] *)

Lemma genSplit_byteFree (n : nat) (s : string) :
  byteFree c s -> strings.genSplit n s (byte c) = [s].
Proof.
  intros H. destruct n; simpl; [reflexivity|]. now rewrite Index_byteFree.
Qed.

Lemma genSplit_byte (n : nat) (a b : string) :
  byteFree c a ->
  strings.genSplit (S n) (a ++ byte c ++ b) (byte c)
  = a :: strings.genSplit n b (byte c).
Proof.
  intros H. cbn [strings.genSplit]. rewrite Index_byte by assumption.
  now rewrite take_app, drop_app_plus.
Qed.

Lemma genSplit_Segments (l : list string) :
  forall n s, Segments c s l -> String.length s <= n ->
              strings.genSplit n s (byte c) = l.
Proof.
  induction l as [|a l IH]; intros n s (Hne & Hall & ->) Hn; [now destruct Hne|].
  inversion Hall as [|? ? Ha Hl]; subst.
  destruct l as [|b l].
  - simpl. now apply genSplit_byteFree.
  - change (String.concat (byte c) (a :: b :: l))
      with (a ++ byte c ++ String.concat (byte c) (b :: l)) in *.
    rewrite !length_append in Hn. change (String.length (byte c)) with 1 in Hn.
    destruct n as [|n]; [lia|].
    rewrite genSplit_byte by assumption. f_equal.
    apply IH; [|lia]. repeat split; [discriminate | assumption].
Qed.

Lemma Segments_exist (s : string) : exists l, Segments c s l.
Proof.
  induction s as [|x s (l & Hne & Hall & E)].
  - exists [""]. repeat split; [discriminate | now repeat constructor].
  - destruct l as [|h l]; [now destruct Hne|].
    inversion Hall as [|? ? Hh Hl]; subst.
    destruct (Ascii.eqb_spec x c) as [->|Hx].
    + exists ("" :: h :: l). repeat split; [discriminate|].
      now repeat constructor.
    + exists (String x h :: l). repeat split; [discriminate | |].
      * constructor; [|assumption]. unfold byteFree in *. simpl.
        rewrite Hh. apply Ascii.eqb_neq in Hx. now rewrite Hx.
      * now destruct l.
Qed.

Lemma Split_Segments (s : string) (l : list string) :
  strings.Split s (byte c) = l <-> Segments c s l.
Proof.
  split.
  - intros <-. destruct (Segments_exist s) as (l & H).
    unfold strings.Split. now rewrite (genSplit_Segments l _ _ H (le_n _)).
  - intros H. now apply genSplit_Segments.
Qed.

(** *** [ReplaceAll] *)

Lemma mapBytes_app (f : ascii -> ascii) (a b : string) :
  mapBytes f (a ++ b) = mapBytes f a ++ mapBytes f b.
Proof. induction a as [|x a IH]; simpl; [reflexivity | now rewrite IH]. Qed.

Lemma replaceByte_byteFree (d : ascii) (s : string) :
  byteFree c s -> mapBytes (replaceByte c d) s = s.
Proof.
  unfold byteFree, replaceByte. induction s as [|x s IH]; simpl; [reflexivity|].
  intros H. apply orb_false_iff in H as [Hx Hs].
  now rewrite Hx, IH.
Qed.

Lemma replaceLoop_byte (d : ascii) :
  forall n s, String.length s <= n ->
              strings.replaceLoop n s (byte c) (byte d)
              = mapBytes (replaceByte c d) s.
Proof.
  induction n as [|n IH]; intros s Hn.
  - destruct s; simpl in *; [reflexivity | lia].
  - cbn [strings.replaceLoop].
    destruct (byte_cases s) as [H|(a & b & -> & H)].
    + now rewrite Index_byteFree, replaceByte_byteFree.
    + rewrite Index_byte by assumption. rewrite take_app, drop_app_plus.
      rewrite !length_append in Hn. change (String.length (byte c)) with 1 in Hn.
      rewrite IH by lia.
      rewrite mapBytes_app, (replaceByte_byteFree d a) by assumption.
      simpl. unfold replaceByte at 2. now rewrite Ascii.eqb_refl.
Qed.

Lemma replaceByte_same (s : string) : mapBytes (replaceByte c c) s = s.
Proof.
  induction s as [|x s IH]; simpl; [reflexivity|]. rewrite IH.
  unfold replaceByte. now destruct (Ascii.eqb_spec x c) as [->|].
Qed.

Lemma ReplaceAll_byte (d : ascii) (s : string) :
  strings.ReplaceAll s (byte c) (byte d) = mapBytes (replaceByte c d) s.
Proof.
  unfold strings.ReplaceAll.
  destruct (String.eqb_spec (byte c) (byte d)) as [E|_].
  - injection E as <-. now rewrite replaceByte_same.
  - now apply replaceLoop_byte.
Qed.

Lemma replaceByte_removes (d : ascii) (s : string) :
  c <> d -> byteFree c (mapBytes (replaceByte c d) s).
Proof.
  intros Hcd. unfold byteFree, replaceByte.
  induction s as [|x s IH]; simpl; [reflexivity|]. rewrite IH.
  destruct (Ascii.eqb_spec x c) as [->|Hx].
  - apply not_eq_sym in Hcd. apply Ascii.eqb_neq in Hcd. now rewrite Hcd.
  - apply Ascii.eqb_neq in Hx. now rewrite Hx.
Qed.

End ByteFacts.

(** ** The parser, step by step *)

Section ParserFacts.

Variable goos : GOOS.

Lemma normalize_unix (s : string) : normalize unix s = s.
Proof. apply replaceByte_same. Qed.

Lemma ReplaceAll_normalize (s : string) :
  strings.ReplaceAll s (String (os.PathSeparator goos) "") "/" = normalize goos s.
Proof. apply (ReplaceAll_byte (os.PathSeparator goos) "/"%char). Qed.

Lemma assignSegments_weaken (segs : list string) (reg ns repo : string) :
  assignSegments segs reg ns repo -> assignSegments123 segs reg ns repo.
Proof.
  destruct segs as [|a [|b [|c [|d l]]]]; simpl; auto.
Qed.

Lemma ParseSteps_weaken norm raw mp :
  ParseSteps assignSegments norm raw mp ->
  ParseSteps assignSegments123 norm raw mp.
Proof.
  intros (rest & segs & repo0 & H1 & H2 & H3 & H4).
  exists rest, segs, repo0.
  split; [assumption|]. split; [assumption|].
  split; [now apply assignSegments_weaken | assumption].
Qed.

(** The last step on its own. *)
Lemma cut_tag (mp : ModelPath) :
  let '(repo, tag, found) := strings.Cut (Repository mp) ":" in
  let mp' := if found then set_Tag tag (set_Repository repo mp) else mp in
  ProtocolScheme mp' = ProtocolScheme mp
  /\ Registry mp' = Registry mp
  /\ Namespace mp' = Namespace mp
  /\ (FirstCut (Repository mp) ":" (Repository mp') (Tag mp')
      \/ (NoOccurrence (Repository mp) ":" /\ Repository mp' = Repository mp
          /\ Tag mp' = Tag mp)).
Proof.
  destruct (strings.Cut (Repository mp) ":") as [[repo tag] [|]] eqn:E.
  - apply Cut_found in E. simpl. repeat (split; [reflexivity|]). now left.
  - apply Cut_not_found in E as (_ & _ & N).
    repeat (split; [reflexivity|]). right. now repeat split.
Qed.

Lemma ParseModelPath_steps (raw : string) :
  ParseSteps assignSegments (normalize goos) raw (ParseModelPath goos raw).
Proof.
  unfold ParseModelPath.
  destruct (strings.Cut raw "://") as [[before after] found] eqn:EC.
  rewrite ReplaceAll_normalize.
  set (rest := if found then after else raw).
  set (mp0 := if found then set_ProtocolScheme before _ else _).
  assert (Hseg : Segments "/" (normalize goos rest)
                          (strings.Split (normalize goos rest) "/"))
    by now apply (Split_Segments "/"%char).
  set (segs := strings.Split (normalize goos rest) "/") in *.
  set (mp1 := match segs with [] => mp0 | _ => _ end).
  assert (H0 : FirstCut raw "://" (ProtocolScheme mp0) rest
               \/ (NoOccurrence raw "://" /\ rest = raw
                   /\ ProtocolScheme mp0 = DefaultProtocolScheme)).
  { subst rest mp0. destruct found.
    - left. now apply Cut_found.
    - right. apply Cut_not_found in EC as (_ & _ & N). now repeat split. }
  assert (H1 : ProtocolScheme mp1 = ProtocolScheme mp0
               /\ Tag mp1 = DefaultTag
               /\ assignSegments segs (Registry mp1) (Namespace mp1) (Repository mp1)).
  { subst mp1. assert (T0 : Tag mp0 = DefaultTag) by (subst mp0; now destruct found).
    assert (R0 : Registry mp0 = DefaultRegistry) by (subst mp0; now destruct found).
    assert (N0 : Namespace mp0 = DefaultNamespace) by (subst mp0; now destruct found).
    assert (P0 : Repository mp0 = "") by (subst mp0; now destruct found).
    destruct segs as [|a [|b [|c [|d l]]]]; simpl; now repeat split. }
  destruct H1 as (HS & HT & HA).
  pose proof (cut_tag mp1) as HC.
  destruct (strings.Cut (Repository mp1) ":") as [[repo tag] found'].
  destruct HC as (C1 & C2 & C3 & C4).
  exists rest, segs, (Repository mp1).
  rewrite C1, C2, C3, HS.
  split; [assumption|]. split; [assumption|]. split; [assumption|].
  destruct C4 as [C4|(C4 & C5 & C6)]; [now left|right].
  rewrite C6, HT. now repeat split.
Qed.

End ParserFacts.

Section ParserSegments.

Variable goos : GOOS.

Lemma byteFree_app (c : ascii) (a b : string) :
  byteFree c (a ++ b) <-> byteFree c a /\ byteFree c b.
Proof. unfold byteFree. rewrite hasByte_app. apply orb_false_iff. Qed.

Lemma byteFree_concat (c : ascii) (sep : string) (l : list string) :
  byteFree c (String.concat sep l) -> Forall (byteFree c) l.
Proof.
  induction l as [|a l IH]; [constructor|].
  destruct l as [|b l]; simpl.
  - now repeat constructor.
  - intros H. apply byteFree_app in H as [Ha H].
    apply byteFree_app in H as [_ H]. constructor; [assumption | now apply IH].
Qed.

Lemma FirstCut_byteFree (c : ascii) (s sep a b : string) :
  FirstCut s sep a b -> byteFree c s -> byteFree c a /\ byteFree c b.
Proof.
  intros [-> _] H. apply byteFree_app in H as [Ha H].
  now apply byteFree_app in H as [_ H].
Qed.

Lemma byteFree_NoOccurrence (c : ascii) (s sep : string) :
  hasByte c sep = true -> byteFree c s -> NoOccurrence s sep.
Proof.
  intros Hsep H a b E. rewrite E in H.
  apply byteFree_app in H as [_ H]. apply byteFree_app in H as [H _].
  unfold byteFree in H. congruence.
Qed.

Lemma normalize_byteFree (s : string) :
  byteFree (os.PathSeparator goos) s -> normalize goos s = s.
Proof. apply replaceByte_byteFree. Qed.

(** After normalisation no native separator is left, on either system. *)
Lemma normalize_no_separator (s : string) :
  byteFree "\" (normalize goos s) \/ goos = unix.
Proof.
  destruct goos; [now right | left].
  now apply (replaceByte_removes "\"%char "/"%char).
Qed.

Lemma assignSegments_repo (P : string -> Prop) segs reg ns repo :
  assignSegments segs reg ns repo -> Forall P segs -> P "" -> P repo.
Proof.
  intros HA HF HE.
  destruct segs as [|a [|b [|c [|d l]]]]; simpl in HA;
    destruct HA as (_ & _ & ->); try assumption;
    repeat match goal with
           | H : Forall _ (_ :: _) |- _ => inversion H; subst; clear H
           end; assumption.
Qed.

(** The repository and the tag that the parser returns hold no slash,
    the repository holds no colon, and on Windows neither holds a
    backslash. *)
Lemma ParseModelPath_free (raw : string) :
  let mp := ParseModelPath goos raw in
  byteFree ":" (Repository mp)
  /\ (byteFree "/" (Repository mp) /\ byteFree "/" (Tag mp))
  /\ (byteFree (os.PathSeparator goos) (Repository mp)
      /\ byteFree (os.PathSeparator goos) (Tag mp)).
Proof.
  intros mp.
  destruct (ParseModelPath_steps goos raw)
    as (rest & segs & repo0 & _ & (_ & Hfree & Hcat) & HA & HC).
  fold mp in HA, HC.
  assert (Hsep : Forall (byteFree (os.PathSeparator goos)) segs).
  { destruct (normalize_no_separator rest) as [H|E].
    - destruct goos; [assumption|]. rewrite Hcat in H.
      now apply byteFree_concat in H.
    - rewrite E. assumption. }
  assert (R1 : byteFree "/" repo0)
    by (apply (assignSegments_repo _ _ _ _ _ HA Hfree); reflexivity).
  assert (R2 : byteFree (os.PathSeparator goos) repo0)
    by (apply (assignSegments_repo _ _ _ _ _ HA Hsep); destruct goos; reflexivity).
  destruct HC as [F|(N & -> & ->)].
  - destruct (FirstCut_byteFree _ _ _ _ _ F R1).
    destruct (FirstCut_byteFree _ _ _ _ _ F R2).
    apply (FirstCut_byte_inv ":"%char) in F as [_ F]. auto.
  - apply (NoOccurrence_byteFree ":"%char) in N.
    repeat split; try assumption; now destruct goos.
Qed.

(** A bare [repository:tag] parses to itself under the defaults. *)
Lemma ParseModelPath_bare (repo tag : string) :
  byteFree ":" repo ->
  byteFree "/" repo -> byteFree "/" tag ->
  byteFree (os.PathSeparator goos) repo -> byteFree (os.PathSeparator goos) tag ->
  ParseModelPath goos (repo ++ ":" ++ tag)
  = mkModelPath DefaultProtocolScheme DefaultRegistry DefaultNamespace repo tag.
Proof.
  intros Hc Hr Ht Hr' Ht'.
  assert (Hs : byteFree "/" (repo ++ ":" ++ tag))
    by (apply byteFree_app; split; [|apply byteFree_app; split];
        try assumption; reflexivity).
  assert (Hs' : byteFree (os.PathSeparator goos) (repo ++ ":" ++ tag)).
  { apply byteFree_app; split; [|apply byteFree_app; split];
      try assumption. destruct goos; reflexivity. }
  unfold ParseModelPath.
  rewrite (Cut_NoOccurrence _ "://")
    by (now apply (byteFree_NoOccurrence "/"%char)).
  rewrite ReplaceAll_normalize, normalize_byteFree by assumption.
  assert (E : strings.Split (repo ++ ":" ++ tag) "/" = [repo ++ ":" ++ tag])
    by (now apply (genSplit_byteFree "/"%char)).
  rewrite E. cbn [Repository set_Repository].
  now rewrite (Cut_byte ":"%char).
Qed.

Lemma Sprintf_repo_tag (repo tag : string) :
  fmt.Sprintf "%s:%s" [repo; tag] = repo ++ ":" ++ tag.
Proof. simpl. now rewrite append_nil_r. Qed.

(** Parsing the short name of a parsed address whose registry and
    namespace are the defaults gives the address back, under the
    default scheme. *)
Lemma ParseModelPath_GetShortTagname (raw : string) :
  let mp := ParseModelPath goos raw in
  Registry mp = DefaultRegistry ->
  Namespace mp = DefaultNamespace ->
  ParseModelPath goos (GetShortTagname mp)
  = set_ProtocolScheme DefaultProtocolScheme mp.
Proof.
  intros mp HR HN.
  destruct (ParseModelPath_free raw) as (Hc & [Hr Ht] & [Hr' Ht']).
  fold mp in Hc, Hr, Ht, Hr', Ht'.
  unfold GetShortTagname. rewrite HR, HN, !String.eqb_refl.
  rewrite Sprintf_repo_tag, ParseModelPath_bare by assumption.
  unfold set_ProtocolScheme. now rewrite HR, HN.
Qed.

End ParserSegments.

(** ** The parser: the claims *)

Lemma ParseModelPath_halves (goos : GOOS) (name : string) :
  ParseModelPath goos name = cutTag (parseSegments goos name).
Proof.
  unfold ParseModelPath, parseSegments, cutTag.
  now destruct (strings.Cut name "://") as [[before after] found].
Qed.

(** The relation [ParseSteps] leaves no choice: it holds of one address
    only. *)
Lemma ParseSteps_deterministic norm raw mp mp' :
  ParseSteps assignSegments norm raw mp ->
  ParseSteps assignSegments norm raw mp' -> mp = mp'.
Proof.
  intros (rest & segs & repo0 & H1 & H2 & H3 & H4)
         (rest' & segs' & repo0' & H1' & H2' & H3' & H4').
  assert (E1 : rest = rest' /\ ProtocolScheme mp = ProtocolScheme mp').
  { destruct H1 as [F|(N & -> & ->)], H1' as [F'|(N' & -> & ->)].
    - destruct (FirstCut_unique _ _ _ _ _ _ F F'). now split.
    - destruct (FirstCut_NoOccurrence _ _ _ _ F N').
    - destruct (FirstCut_NoOccurrence _ _ _ _ F' N).
    - now split. }
  destruct E1 as [<- ES].
  apply (Split_Segments "/"%char) in H2, H2'. rewrite H2 in H2'. subst segs'.
  assert (E3 : Registry mp = Registry mp' /\ Namespace mp = Namespace mp'
               /\ repo0 = repo0').
  { destruct segs as [|a [|b [|c [|d l]]]]; simpl in H3, H3';
      destruct H3 as (-> & -> & ->), H3' as (-> & -> & ->); now repeat split. }
  destruct E3 as (ER & EN & <-).
  assert (E4 : Repository mp = Repository mp' /\ Tag mp = Tag mp').
  { destruct H4 as [F|(N & -> & ->)], H4' as [F'|(N' & -> & ->)].
    - destruct (FirstCut_unique _ _ _ _ _ _ F F'). now split.
    - destruct (FirstCut_NoOccurrence _ _ _ _ F N').
    - destruct (FirstCut_NoOccurrence _ _ _ _ F' N).
    - now split. }
  destruct E4 as [EP ET].
  destruct mp, mp'; simpl in *. congruence.
Qed.

(** C3, as amended.  For every raw string and on either system,
    [ParseModelPath] cuts the string at the first [://] into scheme and
    remainder (the scheme stays [https] when there is none), rewrites the
    native path separators of the remainder to [/], takes the segments
    between the slashes of the result (three are registry, namespace and
    repository; two are namespace and repository; one is the
    repository), and cuts the repository at its first colon into
    repository and tag (the tag stays [latest] when there is none). *)
Theorem ParseModelPath_cuts_normalizes_splits (goos : GOOS) (raw : string) :
  ParseSteps assignSegments123 (normalize goos) raw (ParseModelPath goos raw).
Proof. apply ParseSteps_weaken, ParseModelPath_steps. Qed.

(** C3, as stated, fails on Windows: the claim splits the remainder as it
    is, so [ns\repo] would be one segment and the repository, while the
    parser reads a namespace and a repository. *)
Lemma ParseModelPath_unnormalized_counterexample :
  ~ ParseSteps assignSegments123 (fun rest => rest) "ns\repo"
      (ParseModelPath windows "ns\repo").
Proof.
  intros (rest & segs & repo0 & H1 & H2 & H3 & _).
  assert (rest = "ns\repo") as ->.
  { destruct H1 as [F|(_ & -> & _)]; [|reflexivity].
    apply Cut_FirstCut in F. vm_compute in F. discriminate. }
  apply (Split_Segments "/"%char) in H2. vm_compute in H2. subst segs.
  destruct H3 as (_ & H3 & _). vm_compute in H3. discriminate.
Qed.

(** On Unix the normalisation changes nothing and the steps are the ones
    of the claim as it is stated. *)
Lemma ParseModelPath_steps_unix (raw : string) :
  ParseSteps assignSegments123 (fun rest => rest) raw (ParseModelPath unix raw).
Proof.
  destruct (ParseModelPath_steps unix raw)
    as (rest & segs & repo0 & H1 & H2 & H3 & H4).
  rewrite normalize_unix in H2. exists rest, segs, repo0.
  split; [assumption|]. split; [assumption|].
  split; [now apply assignSegments_weaken | assumption].
Qed.

(** The scenarios of the specification. *)
Example parse_myrepo :
  ParseModelPath unix "myrepo"
  = mkModelPath "https" "registry.ollama.ai" "library" "myrepo" "latest"
  /\ GetShortTagname (ParseModelPath unix "myrepo") = "myrepo:latest"
  /\ GetFullTagname (ParseModelPath unix "myrepo")
     = "registry.ollama.ai/library/myrepo:latest".
Proof. repeat split. Qed.

Example parse_registry_namespace_repository_tag :
  ParseModelPath unix "example.com/ns/repo:v1"
  = mkModelPath "https" "example.com" "ns" "repo" "v1"
  /\ GetShortTagname (ParseModelPath unix "example.com/ns/repo:v1")
     = "example.com/ns/repo:v1".
Proof. repeat split. Qed.

Example parse_scheme :
  ParseModelPath unix "http://example.com/ns/repo:v1"
  = mkModelPath "http" "example.com" "ns" "repo" "v1".
Proof. reflexivity. Qed.

Example parse_too_many_segments :
  ParseModelPath unix "a/b/c/d:e"
  = mkModelPath "https" "registry.ollama.ai" "library" "" "latest".
Proof. reflexivity. Qed.

Example parse_windows :
  ParseModelPath windows "ns\repo"
  = mkModelPath "https" "registry.ollama.ai" "ns" "repo" "latest"
  /\ ParseModelPath unix "ns\repo"
     = mkModelPath "https" "registry.ollama.ai" "library" "ns\repo" "latest".
Proof. repeat split. Qed.

(** C5, as amended.  For every string that parses to an address whose
    registry, namespace and scheme are the defaults, parsing the short
    name of the parsed address gives the same address. *)
Theorem ParseModelPath_GetShortTagname_idempotent (goos : GOOS) (s : string) :
  Registry (ParseModelPath goos s) = DefaultRegistry ->
  Namespace (ParseModelPath goos s) = DefaultNamespace ->
  ProtocolScheme (ParseModelPath goos s) = DefaultProtocolScheme ->
  ParseModelPath goos (GetShortTagname (ParseModelPath goos s))
  = ParseModelPath goos s.
Proof.
  intros HR HN HS. rewrite ParseModelPath_GetShortTagname by assumption.
  rewrite <- HS. now destruct (ParseModelPath goos s).
Qed.

Lemma ParseModelPath_GetShortTagname_idempotent_witness :
  ParseModelPath unix (GetShortTagname (ParseModelPath unix "library/llama3:8b"))
  = ParseModelPath unix "library/llama3:8b".
Proof.
  apply (ParseModelPath_GetShortTagname_idempotent unix "library/llama3:8b");
    reflexivity.
Defined.

(** C5, as stated, fails: the short name does not carry the scheme. *)
Lemma ParseModelPath_GetShortTagname_counterexample :
  Registry (ParseModelPath unix "http://myrepo") = DefaultRegistry
  /\ Namespace (ParseModelPath unix "http://myrepo") = DefaultNamespace
  /\ ParseModelPath unix (GetShortTagname (ParseModelPath unix "http://myrepo"))
     <> ParseModelPath unix "http://myrepo".
Proof. repeat split. vm_compute. discriminate. Qed.

(** ** The validator *)

Lemma Validate_cases (mp : ModelPath) :
  Validate mp
  = if String.eqb (Repository mp) "" then Some errRepositoryRequired
    else if hasByte ":" (Tag mp) then Some errColonInTag
    else None.
Proof.
  unfold Validate. now rewrite (Contains_byte ":"%char).
Qed.

Lemma hasByte_occurrence (c : ascii) (s : string) :
  hasByte c s = true <-> exists a b, s = a ++ byte c ++ b.
Proof.
  split; [apply hasByte_split|].
  intros (a & b & ->). rewrite hasByte_app. simpl.
  rewrite Ascii.eqb_refl. simpl. apply orb_true_r.
Qed.

(** C4.  [Validate] checks the repository first and the tag second: an
    empty repository is refused with the error that the repository name
    is required, otherwise a tag with a colon in it is refused with the
    error that a colon is not allowed in tag names, and every other
    address is accepted.  Both errors wrap the invalid-path error.  The
    scheme, the registry and the namespace have no part in it. *)
Theorem Validate_repository_then_tag (mp : ModelPath) :
  (Repository mp = "" -> Validate mp = Some errRepositoryRequired)
  /\ (Repository mp <> "" -> (exists a b, Tag mp = a ++ ":" ++ b) ->
      Validate mp = Some errColonInTag)
  /\ (Repository mp <> "" -> NoOccurrence (Tag mp) ":" -> Validate mp = None)
  /\ (Validate mp <> None <->
      Repository mp = "" \/ exists a b, Tag mp = a ++ ":" ++ b)
  /\ Unwrap errRepositoryRequired = Some errModelPathInvalid
  /\ Unwrap errColonInTag = Some errModelPathInvalid
  /\ forall scheme registry namespace,
      Validate (mkModelPath scheme registry namespace (Repository mp) (Tag mp))
      = Validate mp.
Proof.
  assert (Frame : forall scheme registry namespace,
             Validate (mkModelPath scheme registry namespace (Repository mp) (Tag mp))
             = Validate mp)
    by (intros; now rewrite !Validate_cases).
  rewrite Validate_cases in *.
  destruct (String.eqb_spec (Repository mp) "") as [E|E].
  - repeat split; try reflexivity; try congruence; try apply Frame.
    intros _. now left.
  - destruct (hasByte ":" (Tag mp)) eqn:H.
    + pose proof (proj1 (hasByte_occurrence _ _) H) as O.
      repeat split; try reflexivity; try congruence; try apply Frame.
      * intros _ N. destruct O as (a & b & O). destruct (N a b O).
      * intros _. now right.
    + repeat split; try reflexivity; try congruence; try apply Frame.
      * intros _ O. apply (hasByte_occurrence ":"%char) in O. congruence.
      * intros [E'|O]; [contradiction|].
        apply (hasByte_occurrence ":"%char) in O. congruence.
Qed.

(** ** The formatters *)

Lemma GetFullTagname_shape (mp : ModelPath) :
  GetFullTagname mp = shapeRegistryNamespaceRepositoryTag mp.
Proof.
  unfold GetFullTagname, shapeRegistryNamespaceRepositoryTag. simpl.
  now rewrite append_nil_r.
Qed.

Lemma GetShortTagname_cases (mp : ModelPath) :
  GetShortTagname mp
  = if String.eqb (Registry mp) DefaultRegistry then
      if String.eqb (Namespace mp) DefaultNamespace then shapeRepositoryTag mp
      else shapeNamespaceRepositoryTag mp
    else shapeRegistryNamespaceRepositoryTag mp.
Proof.
  unfold GetShortTagname, shapeRepositoryTag, shapeNamespaceRepositoryTag,
    shapeRegistryNamespaceRepositoryTag.
  simpl. now rewrite append_nil_r.
Qed.

Lemma shapes_lengths (mp : ModelPath) :
  String.length (shapeNamespaceRepositoryTag mp)
  = String.length (Namespace mp) + 1 + String.length (shapeRepositoryTag mp)
  /\ String.length (shapeRegistryNamespaceRepositoryTag mp)
     = String.length (Registry mp) + 1
       + String.length (shapeNamespaceRepositoryTag mp).
Proof.
  unfold shapeRepositoryTag, shapeNamespaceRepositoryTag,
    shapeRegistryNamespaceRepositoryTag.
  repeat (rewrite length_append; simpl). lia.
Qed.

(** C6.  [GetFullTagname] is always [registry/namespace/repository:tag].
    [GetShortTagname] is that same full shape exactly when the registry
    is not the default one; it is [repository:tag] exactly when the
    registry and the namespace are both the defaults, and
    [namespace/repository:tag] exactly when the registry is the default
    and the namespace is not: a default namespace under another registry
    stays in the name.  These three shapes are all there is. *)
Theorem GetShortTagname_elides_defaults (mp : ModelPath) :
  GetFullTagname mp = shapeRegistryNamespaceRepositoryTag mp
  /\ (GetShortTagname mp = shapeRegistryNamespaceRepositoryTag mp
      <-> Registry mp <> DefaultRegistry)
  /\ (GetShortTagname mp = shapeRepositoryTag mp
      <-> Registry mp = DefaultRegistry /\ Namespace mp = DefaultNamespace)
  /\ (GetShortTagname mp = shapeNamespaceRepositoryTag mp
      <-> Registry mp = DefaultRegistry /\ Namespace mp <> DefaultNamespace)
  /\ (GetShortTagname mp = shapeRepositoryTag mp
      \/ GetShortTagname mp = shapeNamespaceRepositoryTag mp
      \/ GetShortTagname mp = shapeRegistryNamespaceRepositoryTag mp).
Proof.
  split; [apply GetFullTagname_shape|].
  rewrite GetShortTagname_cases.
  destruct (shapes_lengths mp) as [L2 L3].
  assert (D12 : shapeRepositoryTag mp <> shapeNamespaceRepositoryTag mp)
    by (intros E; rewrite <- E in L2; lia).
  assert (D13 : shapeRepositoryTag mp <> shapeRegistryNamespaceRepositoryTag mp)
    by (intros E; rewrite <- E in L3; lia).
  assert (D23 : shapeNamespaceRepositoryTag mp
                <> shapeRegistryNamespaceRepositoryTag mp)
    by (intros E; rewrite <- E in L3; lia).
  destruct (String.eqb_spec (Registry mp) DefaultRegistry) as [ER|ER];
    [destruct (String.eqb_spec (Namespace mp) DefaultNamespace) as [EN|EN]|];
    repeat split; try tauto; try congruence; intros; exfalso; intuition congruence.
Qed.

(** ** A repository segment that ends in its only colon *)

Lemma cutTag_trailing_colon (mp : ModelPath) (repo : string) :
  Repository mp = repo ++ ":" -> byteFree ":" repo ->
  cutTag mp = set_Tag "" (set_Repository repo mp).
Proof.
  intros E H. unfold cutTag. rewrite E.
  change (repo ++ ":") with (repo ++ byte ":" ++ "").
  now rewrite (Cut_byte ":"%char).
Qed.

(** C10, as amended.  For every input whose repository segment is a
    non-empty name without a colon, followed by a colon and nothing else,
    [ParseModelPath] returns that name as the repository and the empty
    string as the tag; the address passes [Validate]; its full name is
    [registry/namespace/name:] and its short name ends in [name:] as
    well, after the registry and namespace that the short name keeps. *)
Theorem ParseModelPath_trailing_colon (goos : GOOS) (raw repo : string) :
  Repository (parseSegments goos raw) = repo ++ ":" ->
  repo <> "" ->
  byteFree ":" repo ->
  Repository (ParseModelPath goos raw) = repo
  /\ Tag (ParseModelPath goos raw) = ""
  /\ Validate (ParseModelPath goos raw) = None
  /\ GetFullTagname (ParseModelPath goos raw)
     = Registry (ParseModelPath goos raw) ++ "/"
       ++ Namespace (ParseModelPath goos raw) ++ "/" ++ repo ++ ":"
  /\ GetShortTagname (ParseModelPath goos raw)
     = shortPrefix (ParseModelPath goos raw) ++ repo ++ ":".
Proof.
  intros E Hne Hfree.
  rewrite ParseModelPath_halves, (cutTag_trailing_colon _ repo E Hfree).
  set (mp := parseSegments goos raw).
  split; [reflexivity|]. split; [reflexivity|]. split; [|split].
  - rewrite Validate_cases. simpl.
    now destruct (String.eqb_spec repo "").
  - now rewrite GetFullTagname_shape.
  - rewrite GetShortTagname_cases. unfold shortPrefix. simpl.
    destruct (String.eqb (Registry mp) DefaultRegistry);
      [destruct (String.eqb (Namespace mp) DefaultNamespace)|];
      unfold shapeRepositoryTag, shapeNamespaceRepositoryTag,
        shapeRegistryNamespaceRepositoryTag; simpl;
      repeat (rewrite append_assoc; simpl); reflexivity.
Qed.

Lemma ParseModelPath_trailing_colon_witness :
  Repository (ParseModelPath unix "repo:") = "repo"
  /\ Tag (ParseModelPath unix "repo:") = ""
  /\ Validate (ParseModelPath unix "repo:") = None
  /\ GetFullTagname (ParseModelPath unix "repo:")
     = Registry (ParseModelPath unix "repo:") ++ "/"
       ++ Namespace (ParseModelPath unix "repo:") ++ "/" ++ "repo" ++ ":"
  /\ GetShortTagname (ParseModelPath unix "repo:")
     = shortPrefix (ParseModelPath unix "repo:") ++ "repo" ++ ":".
Proof.
  apply (ParseModelPath_trailing_colon unix "repo:" "repo");
    [reflexivity | discriminate | reflexivity].
Defined.

(** C10, as stated, fails twice.  The segment [:] ends in a colon with
    nothing after it and its address does not pass [Validate], the
    repository being empty; the segment [a:b:] ends in a colon with
    nothing after it and its tag is [b:], not the empty string. *)
Lemma ParseModelPath_trailing_colon_counterexample :
  (Repository (parseSegments unix ":") = "" ++ ":"
   /\ Validate (ParseModelPath unix ":") <> None)
  /\ (Repository (parseSegments unix "a:b:") = "a:b" ++ ":"
      /\ Tag (ParseModelPath unix "a:b:") <> "").
Proof. repeat split; vm_compute; discriminate. Qed.

(** ** The pattern of a digest *)

Section RegexpFacts.

Import regexp.

Lemma matchHere_Repeat_S n r b s k :
  matchHere (Repeat (S n) r) b s k
  = matchHere r b s (fun b' s' => matchHere (Repeat n r) b' s' k).
Proof. reflexivity. Qed.

Lemma matchHere_CharClass ranges b s k :
  matchHere (CharClass ranges) b s k
  = match s with
    | "" => false
    | String c s' => inClass c ranges && k false s'
    end.
Proof. reflexivity. Qed.

(** [n] bytes of a class, then the continuation. *)
Lemma matchHere_Repeat_CharClass ranges k :
  forall n b s,
    matchHere (Repeat n (CharClass ranges)) b s k = true <->
    exists h t,
      s = h ++ t /\ String.length h = n
      /\ allBytes (fun c => inClass c ranges) h = true
      /\ k (match n with 0 => b | S _ => false end) t = true.
Proof.
  induction n as [|n IH]; intros b s.
  - simpl. split.
    + intros H. exists "", s. now repeat split.
    + intros (h & t & -> & L & _ & H). apply length_zero in L. now subst h.
  - rewrite matchHere_Repeat_S, matchHere_CharClass. destruct s as [|c s].
    + split; [discriminate|]. intros (h & t & E & L & _).
      destruct h; simpl in *; discriminate.
    + rewrite andb_true_iff, IH. split.
      * intros (Hc & h & t & -> & L & A & K).
        exists (String c h), t. simpl. rewrite Hc, A, L.
        repeat split. now destruct n.
      * intros (h & t & E & L & A & K).
        destruct h as [|c' h]; [discriminate|]. simpl in *.
        injection E as <- ->. injection L as L.
        apply andb_true_iff in A as [Hc A].
        split; [assumption|]. exists h, t. repeat split; try assumption.
        now destruct n.
Qed.

(** A pattern that begins with [^] matches nowhere but at the beginning
    of the text. *)
Lemma search_BeginText r s :
  search (Concat BeginText r) false s = false.
Proof. induction s as [|c s IH]; simpl; [reflexivity | exact IH]. Qed.

Lemma MatchString_BeginText r s :
  MatchString (Concat BeginText r) s = matchHere r true s (fun _ _ => true).
Proof.
  unfold MatchString. destruct s as [|c s]; cbn [search].
  - cbn [matchHere]. simpl. now rewrite orb_false_r.
  - rewrite search_BeginText. cbn [matchHere]. simpl. now rewrite orb_false_r.
Qed.

Lemma inRange_single (c x : ascii) : inRange c (x, x) = true <-> c = x.
Proof.
  unfold inRange. simpl. rewrite andb_true_iff, !Nat.leb_le. split.
  - intros [H1 H2].
    rewrite <- (ascii_nat_embedding c), <- (ascii_nat_embedding x).
    f_equal. lia.
  - intros ->. lia.
Qed.

Lemma inClass_separator (c : ascii) :
  inClass c [(":"%char, ":"%char); ("-"%char, "-"%char)] = true
  <-> c = ":"%char \/ c = "-"%char.
Proof.
  unfold inClass. cbn [existsb].
  rewrite orb_false_r, orb_true_iff, !inRange_single. reflexivity.
Qed.

Lemma inClass_hexDigit (c : ascii) :
  inClass c [("0"%char, "9"%char); ("a"%char, "f"%char); ("A"%char, "F"%char)]
  = hexDigit c.
Proof.
  destruct c as [[|] [|] [|] [|] [|] [|] [|] [|]]; reflexivity.
Qed.

Lemma allBytes_ext (p q : ascii -> bool) (s : string) :
  (forall c, p c = q c) -> allBytes p s = allBytes q s.
Proof.
  intros E. induction s as [|c s IH]; simpl; [reflexivity | now rewrite E, IH].
Qed.

Lemma matchHere_Concat r1 r2 b s k :
  matchHere (Concat r1 r2) b s k
  = matchHere r1 b s (fun b' s' => matchHere r2 b' s' k).
Proof. reflexivity. Qed.

Lemma matchHere_Literal l b s k :
  matchHere (Literal l) b s k
  = strings.HasPrefix s l
    && k (b && isEmpty l) (strings.drop (String.length l) s).
Proof. reflexivity. Qed.

Lemma matchHere_EndText b s k :
  matchHere EndText b s k = isEmpty s && k b s.
Proof. reflexivity. Qed.

(** What follows [sha256] in the pattern: the separator, the 64 digits
    and the end of the text. *)
Lemma match_separator_digits (b : bool) (r : string) :
  matchHere
    (Concat (CharClass [(":"%char, ":"%char); ("-"%char, "-"%char)])
       (Concat
          (Repeat 64
             (CharClass [("0"%char, "9"%char); ("a"%char, "f"%char);
                         ("A"%char, "F"%char)]))
          EndText))
    b r (fun _ _ => true) = true
  <-> exists sep hex,
      r = String sep hex
      /\ (sep = ":"%char \/ sep = "-"%char)
      /\ String.length hex = 64
      /\ allBytes hexDigit hex = true.
Proof.
  rewrite matchHere_Concat, matchHere_CharClass. destruct r as [|sep r].
  - split; [discriminate|]. intros (sep & hex & E & _). discriminate.
  - cbv beta.
    rewrite andb_true_iff, inClass_separator, matchHere_Concat,
      matchHere_Repeat_CharClass.
    split.
    + intros (Hsep & h & t & -> & L & A & E).
      cbv beta iota in E. rewrite matchHere_EndText in E.
      destruct t; [|discriminate].
      exists sep, h. rewrite append_nil_r.
      rewrite (allBytes_ext _ hexDigit) in A by apply inClass_hexDigit.
      now repeat split.
    + intros (sep' & hex & [= <- <-] & Hsep & L & A).
      split; [assumption|]. exists r, "". rewrite append_nil_r.
      rewrite (allBytes_ext _ hexDigit) by apply inClass_hexDigit.
      now repeat split.
Qed.

(** The pattern [^sha256[:-][0-9a-fA-F]{64}$] matches the digests and
    nothing else. *)
Lemma blobDigestRegEx_Sha256Digest (digest : string) :
  MatchString blobDigestRegEx digest = true <-> Sha256Digest digest.
Proof.
  unfold blobDigestRegEx, Sha256Digest.
  rewrite MatchString_BeginText, matchHere_Concat, matchHere_Literal.
  cbv beta. rewrite andb_true_iff, HasPrefix_iff, match_separator_digits.
  split.
  - intros ([r ->] & sep & hex & E & H). rewrite drop_app in E. subst r.
    now exists sep, hex.
  - intros (sep & hex & -> & H). split; [now exists (String sep hex)|].
    exists sep, hex. now rewrite drop_app.
Qed.

End RegexpFacts.

(** ** The path resolvers *)

Section ResolverFacts.

Context {W : Type} (host : Platform W).

Lemma GetManifestPath_cases (w : W) (root : string) :
  modelsDir host w = (root, None) ->
  GetManifestPath host w
  = createThenReturn host (Join host [root; "manifests"])
                     (Join host [root; "manifests"]) w.
Proof.
  intros E. unfold GetManifestPath, createThenReturn. rewrite E.
  now destruct (MkdirAll host _ _ w) as [[e|] w'].
Qed.

Lemma GetBlobsPath_cases (digest : string) (w : W) (root : string) :
  modelsDir host w = (root, None) ->
  GetBlobsPath host digest w
  = let dir := Join host [root; "blobs"] in
    if String.eqb digest "" then createThenReturn host dir dir w
    else if regexp.MatchString blobDigestRegEx digest then
      createThenReturn host dir
        (Join host [dir; strings.ReplaceAll digest ":" "-"]) w
    else (("", Some ErrInvalidDigestFormat), w).
Proof.
  intros E. unfold GetBlobsPath, createThenReturn. rewrite E. cbv zeta.
  destruct (String.eqb digest ""); cbn [negb];
    [|destruct (regexp.MatchString blobDigestRegEx digest); cbn [negb]];
    try reflexivity;
    now destruct (MkdirAll host _ _ w) as [[e|] w'].
Qed.

Lemma createThenReturn_error (dir path : string) (w : W) :
  snd (fst (createThenReturn host dir path w)) <> Some ErrInvalidDigestFormat.
Proof.
  unfold createThenReturn. destruct (MkdirAll host dir 493 w) as [[e|] w'];
    simpl; discriminate.
Qed.

Lemma createThenReturn_state (dir path : string) (w : W) :
  snd (createThenReturn host dir path w) = snd (MkdirAll host dir 493 w).
Proof.
  unfold createThenReturn. now destruct (MkdirAll host dir 493 w) as [[e|] w'].
Qed.

Lemma createThenReturn_created (dir path : string) (w w' : W) :
  MkdirAll host dir 493 w = (None, w') ->
  createThenReturn host dir path w = ((path, None), w').
Proof. intros E. unfold createThenReturn. now rewrite E. Qed.

Lemma createThenReturn_failed (dir path : string) (w w' : W) e :
  MkdirAll host dir 493 w = (Some e, w') ->
  createThenReturn host dir path w = (("", Some (osError e)), w').
Proof. intros E. unfold createThenReturn. now rewrite E. Qed.

Lemma MatchString_false (digest : string) :
  regexp.MatchString blobDigestRegEx digest = false <-> ~ Sha256Digest digest.
Proof.
  rewrite <- blobDigestRegEx_Sha256Digest.
  destruct (regexp.MatchString blobDigestRegEx digest); split;
    congruence.
Qed.

End ResolverFacts.

Lemma hexDigit_not_colon (hex : string) :
  allBytes hexDigit hex = true -> byteFree ":" hex.
Proof.
  unfold byteFree. induction hex as [|c hex IH]; simpl; [reflexivity|].
  intros H. apply andb_true_iff in H as [Hc H]. rewrite (IH H).
  destruct (Ascii.eqb_spec c ":") as [->|_]; [discriminate | reflexivity].
Qed.

(** The colon of a digest becomes a dash and nothing else changes. *)
Lemma ReplaceAll_digest (sep : ascii) (hex : string) :
  sep = ":"%char \/ sep = "-"%char ->
  allBytes hexDigit hex = true ->
  strings.ReplaceAll ("sha256" ++ String sep hex) ":" "-" = "sha256-" ++ hex.
Proof.
  intros Hsep Hhex. rewrite (ReplaceAll_byte ":"%char "-"%char).
  rewrite mapBytes_app. cbn [mapBytes].
  rewrite (replaceByte_byteFree ":"%char "-"%char hex)
    by now apply hexDigit_not_colon.
  destruct Hsep as [-> | ->]; reflexivity.
Qed.

(** ** The path resolvers: the claims *)

(** C9.  [modelsDir] returns the value of [OLLAMA_MODELS] when the
    variable is set, whatever the value; when it is not set, it returns
    the home directory of the user joined with [.ollama] and [models],
    and when no home directory is found it returns the error of that
    lookup and nothing else is tried. *)
Theorem modelsDir_override_then_home {W : Type} (host : Platform W) (w : W) :
  (forall models,
      LookupEnv host "OLLAMA_MODELS" w = Some models ->
      modelsDir host w = (models, None))
  /\ (forall home,
         LookupEnv host "OLLAMA_MODELS" w = None ->
         UserHomeDir host w = (home, None) ->
         modelsDir host w = (Join host [home; ".ollama"; "models"], None))
  /\ (forall home e,
         LookupEnv host "OLLAMA_MODELS" w = None ->
         UserHomeDir host w = (home, Some e) ->
         modelsDir host w = ("", Some (osError e))).
Proof.
  unfold modelsDir. repeat split.
  - now intros models ->.
  - now intros home -> ->.
  - now intros home e -> ->.
Qed.

Example modelsDir_home :
  modelsDir unixhost.host exampleWorld = ("/home/ollama/.ollama/models", None).
Proof. reflexivity. Qed.

Example modelsDir_override :
  modelsDir unixhost.host exampleOverride = ("/srv/models", None).
Proof. reflexivity. Qed.

Example modelsDir_homeless :
  modelsDir unixhost.host exampleHomeless
  = ("", Some (osError (oserror.errorString "$HOME is not defined"))).
Proof. reflexivity. Qed.

(** C8.  The method [GetManifestPath] of an address never changes the
    state of the machine; it returns the store root joined with
    [manifests], the registry, the namespace, the repository and the
    tag.  The function [GetManifestPath] calls [MkdirAll] on the store
    root joined with [manifests] and that call is all it does to the
    state; it returns that directory when the call succeeds and the
    error of the call when it fails.  When the store root is not found,
    both return the error and the state is as it was. *)
Theorem GetManifestPath_method_pure_function_creates
        {W : Type} (host : Platform W) (w : W) :
  (forall mp, snd (ModelPath_GetManifestPath host mp w) = w)
  /\ (forall root,
         modelsDir host w = (root, None) ->
         (forall mp,
             fst (ModelPath_GetManifestPath host mp w)
             = (Join host [root; "manifests"; Registry mp; Namespace mp;
                           Repository mp; Tag mp], None))
         /\ snd (GetManifestPath host w)
            = snd (MkdirAll host (Join host [root; "manifests"]) 493 w)
         /\ (forall w',
                MkdirAll host (Join host [root; "manifests"]) 493 w = (None, w') ->
                GetManifestPath host w = ((Join host [root; "manifests"], None), w'))
         /\ (forall e w',
                MkdirAll host (Join host [root; "manifests"]) 493 w = (Some e, w') ->
                GetManifestPath host w = (("", Some (osError e)), w')))
  /\ (forall s e,
         modelsDir host w = (s, Some e) ->
         GetManifestPath host w = (("", Some e), w)
         /\ forall mp, ModelPath_GetManifestPath host mp w = (("", Some e), w)).
Proof.
  split; [|split].
  - intros mp. unfold ModelPath_GetManifestPath.
    now destruct (modelsDir host w) as [dir [e|]].
  - intros root E. split; [|split; [|split]].
    + intros mp. unfold ModelPath_GetManifestPath. now rewrite E.
    + rewrite (GetManifestPath_cases host w root E).
      apply createThenReturn_state.
    + intros w' M. rewrite (GetManifestPath_cases host w root E).
      now apply createThenReturn_created.
    + intros e w' M. rewrite (GetManifestPath_cases host w root E).
      now apply createThenReturn_failed.
  - intros s e E. unfold GetManifestPath, ModelPath_GetManifestPath.
    now rewrite E.
Qed.

Example GetManifestPath_method_example :
  ModelPath_GetManifestPath unixhost.host
    (ParseModelPath unix "example.com/ns/repo:v1") exampleWorld
  = (("/home/ollama/.ollama/models/manifests/example.com/ns/repo/v1", None),
     exampleWorld).
Proof. reflexivity. Qed.

Example GetManifestPath_function_example :
  fst (GetManifestPath unixhost.host exampleWorld)
  = ("/home/ollama/.ollama/models/manifests", None)
  /\ unixhost.dirs (snd (GetManifestPath unixhost.host exampleWorld))
     = ["/home/ollama/.ollama"; "/home/ollama/.ollama/models";
        "/home/ollama/.ollama/models/manifests"; "/home"; "/home/ollama"].
Proof. split; reflexivity. Qed.

(** C7.  When the store root is found and the blobs directory can be
    created, [GetBlobsPath] returns, for a digest of [sha256], a colon or
    a dash and 64 hexadecimal digits, the blobs directory joined with
    [sha256-] and the same digits, and for the empty digest the blobs
    directory itself. *)
Theorem GetBlobsPath_dash_under_blobs
        {W : Type} (host : Platform W) (w w' : W) (root : string)
        (sep : ascii) (hex : string) :
  modelsDir host w = (root, None) ->
  MkdirAll host (Join host [root; "blobs"]) 493 w = (None, w') ->
  sep = ":"%char \/ sep = "-"%char ->
  String.length hex = 64 ->
  allBytes hexDigit hex = true ->
  GetBlobsPath host ("sha256" ++ String sep hex) w
  = ((Join host [Join host [root; "blobs"]; "sha256-" ++ hex], None), w')
  /\ GetBlobsPath host "" w = ((Join host [root; "blobs"], None), w').
Proof.
  intros E M Hsep L A. split.
  - rewrite (GetBlobsPath_cases host _ w root E). cbv zeta.
    assert (V : Sha256Digest ("sha256" ++ String sep hex))
      by (exists sep, hex; now repeat split).
    apply blobDigestRegEx_Sha256Digest in V. rewrite V.
    rewrite ReplaceAll_digest by assumption.
    now apply createThenReturn_created.
  - rewrite (GetBlobsPath_cases host _ w root E). cbv zeta.
    now apply createThenReturn_created.
Qed.

Lemma GetBlobsPath_dash_under_blobs_witness :
  GetBlobsPath unixhost.host ("sha256" ++ String ":" exampleHex) exampleWorld
  = ((Join unixhost.host
        [Join unixhost.host ["/home/ollama/.ollama/models"; "blobs"];
         "sha256-" ++ exampleHex], None),
     snd (unixhost.MkdirAll "/home/ollama/.ollama/models/blobs" 493
                            exampleWorld))
  /\ GetBlobsPath unixhost.host "" exampleWorld
     = ((Join unixhost.host ["/home/ollama/.ollama/models"; "blobs"], None),
        snd (unixhost.MkdirAll "/home/ollama/.ollama/models/blobs" 493
                               exampleWorld)).
Proof.
  apply (GetBlobsPath_dash_under_blobs unixhost.host exampleWorld
           (snd (unixhost.MkdirAll "/home/ollama/.ollama/models/blobs" 493
                                   exampleWorld))
           "/home/ollama/.ollama/models" ":"%char exampleHex);
    try reflexivity.
  now left.
Defined.

Example GetBlobsPath_colon_example :
  fst (GetBlobsPath unixhost.host ("sha256:" ++ exampleHex) exampleWorld)
  = ("/home/ollama/.ollama/models/blobs/sha256-" ++ exampleHex, None).
Proof. reflexivity. Qed.

Example GetBlobsPath_empty_example :
  fst (GetBlobsPath unixhost.host "" exampleWorld)
  = ("/home/ollama/.ollama/models/blobs", None).
Proof. reflexivity. Qed.

(** C2.  When the store root is found, [GetBlobsPath] refuses a digest
    with the error of an invalid digest format exactly when the digest is
    not empty and is not [sha256], a colon or a dash, and 64 hexadecimal
    digits of either case; nothing is created then.  A digest of that
    form is accepted: the call goes on to create the blobs directory,
    which is all that can still fail, and returns the path of the
    blob. *)
Theorem GetBlobsPath_accepts_sha256_digests
        {W : Type} (host : Platform W) (w : W) (root digest : string) :
  modelsDir host w = (root, None) ->
  (snd (fst (GetBlobsPath host digest w)) = Some ErrInvalidDigestFormat
   <-> digest <> "" /\ ~ Sha256Digest digest)
  /\ (digest <> "" -> ~ Sha256Digest digest ->
      GetBlobsPath host digest w = (("", Some ErrInvalidDigestFormat), w))
  /\ (Sha256Digest digest ->
      GetBlobsPath host digest w
      = createThenReturn host (Join host [root; "blobs"])
          (Join host [Join host [root; "blobs"];
                      strings.ReplaceAll digest ":" "-"]) w).
Proof.
  intros E. rewrite (GetBlobsPath_cases host digest w root E). cbv zeta.
  destruct (String.eqb_spec digest "") as [->|Hne].
  - split; [|split].
    + split; [|now intros [H _]].
      intros H. now apply createThenReturn_error in H.
    + now intros H.
    + intros (sep & hex & H & _). discriminate.
  - destruct (regexp.MatchString blobDigestRegEx digest) eqn:M.
    + apply blobDigestRegEx_Sha256Digest in M. split; [|split]; try easy.
      split; [|now intros [_ H]].
      intros H. now apply createThenReturn_error in H.
    + apply MatchString_false in M. now repeat split.
Qed.

Lemma GetBlobsPath_accepts_sha256_digests_witness :
  (snd (fst (GetBlobsPath unixhost.host ("sha256-" ++ exampleHex) exampleWorld))
   = Some ErrInvalidDigestFormat
   <-> "sha256-" ++ exampleHex <> "" /\ ~ Sha256Digest ("sha256-" ++ exampleHex))
  /\ ("sha256-" ++ exampleHex <> "" -> ~ Sha256Digest ("sha256-" ++ exampleHex) ->
      GetBlobsPath unixhost.host ("sha256-" ++ exampleHex) exampleWorld
      = (("", Some ErrInvalidDigestFormat), exampleWorld))
  /\ (Sha256Digest ("sha256-" ++ exampleHex) ->
      GetBlobsPath unixhost.host ("sha256-" ++ exampleHex) exampleWorld
      = createThenReturn unixhost.host
          (Join unixhost.host ["/home/ollama/.ollama/models"; "blobs"])
          (Join unixhost.host
             [Join unixhost.host ["/home/ollama/.ollama/models"; "blobs"];
              strings.ReplaceAll ("sha256-" ++ exampleHex) ":" "-"])
          exampleWorld).
Proof.
  apply (GetBlobsPath_accepts_sha256_digests unixhost.host exampleWorld
           "/home/ollama/.ollama/models" ("sha256-" ++ exampleHex)).
  reflexivity.
Defined.

(** The digest of the examples is one. *)
Example exampleHex_Sha256Digest :
  Sha256Digest ("sha256:" ++ exampleHex) /\ Sha256Digest ("sha256-" ++ exampleHex).
Proof.
  split; [exists ":"%char, exampleHex | exists "-"%char, exampleHex];
    repeat split; auto.
Qed.

(** The digests that the claim names as refused: a wrong length, a byte
    that is no hexadecimal digit, a missing prefix, a wrong separator. *)
Example GetBlobsPath_refuses :
  Forall (fun digest =>
            GetBlobsPath unixhost.host digest exampleWorld
            = (("", Some ErrInvalidDigestFormat), exampleWorld))
         ["sha256:" ++ exampleHex ++ "0";
          "sha256:" ++ strings.take 63 exampleHex;
          "sha256:" ++ strings.take 63 exampleHex ++ "g";
          exampleHex;
          "sha512:" ++ exampleHex;
          "sha256_" ++ exampleHex;
          "sha256" ++ exampleHex;
          " sha256:" ++ exampleHex].
Proof. repeat constructor. Qed.

(** C1, as amended.  When the store root is found, [GetBlobsPath]
    validates the digest before it creates anything: a non-empty digest
    that is not of the form of a digest is refused with the error of an
    invalid digest format and the state of the machine is as it was,
    [MkdirAll] not being called; the blobs directory is created for the
    empty digest and for a digest of the right form, and that call of
    [MkdirAll] is all that happens to the state. *)
Theorem GetBlobsPath_validates_before_creating
        {W : Type} (host : Platform W) (w : W) (root digest : string) :
  modelsDir host w = (root, None) ->
  (digest <> "" -> ~ Sha256Digest digest ->
   GetBlobsPath host digest w = (("", Some ErrInvalidDigestFormat), w))
  /\ (digest = "" \/ Sha256Digest digest ->
      snd (GetBlobsPath host digest w)
      = snd (MkdirAll host (Join host [root; "blobs"]) 493 w)).
Proof.
  intros E. rewrite (GetBlobsPath_cases host digest w root E). cbv zeta.
  destruct (String.eqb_spec digest "") as [->|Hne].
  - split; [easy|]. intros _. apply createThenReturn_state.
  - destruct (regexp.MatchString blobDigestRegEx digest) eqn:M.
    + apply blobDigestRegEx_Sha256Digest in M. split; [easy|].
      intros _. apply createThenReturn_state.
    + apply MatchString_false in M. split; [easy|].
      intros [H|H]; contradiction.
Qed.

Lemma GetBlobsPath_validates_before_creating_witness :
  ("sha256:xyz" <> "" -> ~ Sha256Digest "sha256:xyz" ->
   GetBlobsPath unixhost.host "sha256:xyz" exampleWorld
   = (("", Some ErrInvalidDigestFormat), exampleWorld))
  /\ ("sha256:xyz" = "" \/ Sha256Digest "sha256:xyz" ->
      snd (GetBlobsPath unixhost.host "sha256:xyz" exampleWorld)
      = snd (MkdirAll unixhost.host
               (Join unixhost.host ["/home/ollama/.ollama/models"; "blobs"])
               493 exampleWorld)).
Proof.
  apply (GetBlobsPath_validates_before_creating unixhost.host exampleWorld
           "/home/ollama/.ollama/models" "sha256:xyz").
  reflexivity.
Defined.

(** C1, as stated, fails: the digest [sha256:xyz] is not empty and not of
    the form of a digest, the call returns the error of an invalid digest
    format, and the blobs directory, which was not there before, is not
    there after. *)
Lemma GetBlobsPath_creates_nothing_counterexample :
  "sha256:xyz" <> ""
  /\ ~ Sha256Digest "sha256:xyz"
  /\ modelsDir unixhost.host exampleWorld = ("/home/ollama/.ollama/models", None)
  /\ fst (GetBlobsPath unixhost.host "sha256:xyz" exampleWorld)
     = ("", Some ErrInvalidDigestFormat)
  /\ unixhost.isDir
       (Join unixhost.host ["/home/ollama/.ollama/models"; "blobs"])
       (snd (GetBlobsPath unixhost.host "sha256:xyz" exampleWorld))
     = false.
Proof.
  split; [discriminate|]. split; [|now repeat split].
  now apply MatchString_false.
Qed.

(** * Further properties of the parser and the formatters *)

Section ParserInvariant.

Variable goos : GOOS.

Lemma assignSegments_fields (P : string -> Prop) segs reg ns repo :
  assignSegments segs reg ns repo ->
  Forall P segs -> P DefaultRegistry -> P DefaultNamespace -> P "" ->
  P reg /\ P ns /\ P repo.
Proof.
  intros HA HF HR HN HE.
  destruct segs as [|a [|b [|c [|d l]]]]; simpl in HA;
    destruct HA as (-> & -> & ->);
    repeat match goal with
           | H : Forall _ (_ :: _) |- _ => inversion H; subst; clear H
           end; now repeat split.
Qed.

Lemma separatorFree_defaults :
  separatorFree goos DefaultRegistry /\ separatorFree goos DefaultNamespace
  /\ separatorFree goos DefaultTag /\ separatorFree goos "".
Proof. destruct goos; repeat split; reflexivity. Qed.

(** The relation [ParseSteps] holds of the parsed address only. *)
Lemma ParseSteps_ParseModelPath (raw : string) (mp : ModelPath) :
  ParseSteps assignSegments (normalize goos) raw mp ->
  ParseModelPath goos raw = mp.
Proof.
  intros H. apply (ParseSteps_deterministic (normalize goos) raw); [|assumption].
  apply ParseModelPath_steps.
Qed.

Lemma ParseModelPath_WellFormed_fields (raw : string) :
  WellFormed goos (ParseModelPath goos raw).
Proof.
  destruct (ParseModelPath_free goos raw) as (Hc & [Hr Ht] & [Hr' Ht']).
  destruct (ParseModelPath_steps goos raw)
    as (rest & segs & repo0 & _ & (_ & Hfree & Hcat) & HA & _).
  assert (Hsep : Forall (byteFree (os.PathSeparator goos)) segs).
  { destruct (normalize_no_separator goos rest) as [H|E].
    - destruct goos; [assumption|]. rewrite Hcat in H.
      now apply byteFree_concat in H.
    - rewrite E. assumption. }
  assert (Hboth : Forall (separatorFree goos) segs).
  { apply Forall_forall. intros x Hx. split.
    - now apply (proj1 (Forall_forall _ _) Hfree).
    - now apply (proj1 (Forall_forall _ _) Hsep). }
  destruct separatorFree_defaults as (D1 & D2 & _ & D4).
  destruct (assignSegments_fields _ _ _ _ _ HA Hboth D1 D2 D4) as (F1 & F2 & _).
  unfold WellFormed. split; [assumption|]. split; [assumption|].
  unfold separatorFree. now repeat split.
Qed.

End ParserInvariant.

Lemma countByte_app (c : ascii) (a b : string) :
  countByte c (a ++ b) = countByte c a + countByte c b.
Proof.
  induction a as [|x a IH]; simpl; [reflexivity|]. rewrite IH. lia.
Qed.

Lemma countByte_byteFree (c : ascii) (s : string) :
  countByte c s = 0 <-> byteFree c s.
Proof.
  unfold byteFree. induction s as [|x s IH]; simpl; [easy|].
  destruct (Ascii.eqb x c); simpl; [split; [lia | discriminate] | exact IH].
Qed.

(** X1.  Whatever the input and the system, the registry, the namespace,
    the repository and the tag that [ParseModelPath] returns hold no
    slash and no native path separator, and the repository holds no
    colon; so the full name of a parsed address has exactly two
    slashes. *)
Theorem ParseModelPath_fields_hold_no_separator (goos : GOOS) (raw : string) :
  WellFormed goos (ParseModelPath goos raw)
  /\ countByte "/" (GetFullTagname (ParseModelPath goos raw)) = 2.
Proof.
  pose proof (ParseModelPath_WellFormed_fields goos raw) as H.
  split; [assumption|].
  destruct H as ([R _] & [N _] & [P _] & [T _] & _).
  apply countByte_byteFree in R, N, P, T.
  rewrite GetFullTagname_shape. unfold shapeRegistryNamespaceRepositoryTag.
  repeat (rewrite countByte_app; simpl). lia.
Qed.

Section RoundTrips.

Variable goos : GOOS.

(** A scheme without a slash ends at the first [://]. *)
Lemma FirstCut_scheme (scheme rest : string) :
  byteFree "/" scheme -> FirstCut (scheme ++ "://" ++ rest) "://" scheme rest.
Proof.
  intros Hs. split; [reflexivity|]. intros a' b' E.
  destruct (Nat.le_gt_cases (String.length scheme) (String.length a')) as [L|L];
    [assumption|exfalso].
  destruct (append_split _ _ _ _ E ltac:(lia)) as (m & -> & Em).
  apply byteFree_app in Hs as [_ Hm].
  destruct m as [|x [|y m]].
  - rewrite length_append in L. simpl in L. lia.
  - simpl in Em. discriminate.
  - simpl in Em. injection Em as E1 E2 E3. subst x y.
    unfold byteFree in Hm. simpl in Hm. discriminate.
Qed.

Lemma concat_app (sep : string) (lx ly : list string) :
  lx <> [] -> ly <> [] ->
  String.concat sep (lx ++ ly)%list
  = String.concat sep lx ++ sep ++ String.concat sep ly.
Proof.
  intros Hx Hy. induction lx as [|x lx IH]; [now destruct Hx|].
  destruct lx as [|x' lx].
  - simpl. destruct ly; [now destruct Hy | reflexivity].
  - change (String.concat sep ((x :: x' :: lx) ++ ly)%list)
      with (x ++ sep ++ String.concat sep ((x' :: lx) ++ ly)%list).
    rewrite IH by discriminate.
    change (String.concat sep (x :: x' :: lx))
      with (x ++ sep ++ String.concat sep (x' :: lx)).
    now rewrite !append_assoc.
Qed.

Lemma Segments_app (c : ascii) (x y : string) (lx ly : list string) :
  Segments c x lx -> Segments c y ly ->
  Segments c (x ++ byte c ++ y) (lx ++ ly)%list.
Proof.
  intros (Nx & Fx & ->) (Ny & Fy & ->). split; [|split].
  - destruct lx; [now destruct Nx | discriminate].
  - apply Forall_app. now split.
  - now rewrite concat_app.
Qed.

Lemma Segments_unique (c : ascii) (s : string) (l l' : list string) :
  Segments c s l -> Segments c s l' -> l = l'.
Proof.
  intros H H'. apply Split_Segments in H, H'. congruence.
Qed.

(** Where [://] occurs, an empty segment stands between two others. *)
Lemma occurrence_empty_segment (s a b : string) (l : list string) :
  s = a ++ "://" ++ b -> Segments "/" s l ->
  exists la lb, la <> [] /\ lb <> [] /\ l = (la ++ "" :: lb)%list.
Proof.
  intros -> H.
  destruct (Segments_exist "/" (a ++ ":")) as (la & Ha).
  destruct (Segments_exist "/" b) as (lb & Hb).
  assert (He : Segments "/" "" [""])
    by (repeat split; [discriminate | now repeat constructor]).
  pose proof (Segments_app _ _ _ _ _ Ha (Segments_app _ _ _ _ _ He Hb)) as H'.
  replace ((a ++ ":") ++ byte "/" ++ "" ++ byte "/" ++ b)
    with (a ++ "://" ++ b) in H' by (now rewrite append_assoc).
  exists la, lb. split; [apply Ha|]. split; [apply Hb|].
  apply (Segments_unique _ _ _ _ H H').
Qed.

Lemma NoOccurrence_two_segments (x y : string) :
  byteFree "/" x -> byteFree "/" y -> NoOccurrence (x ++ "/" ++ y) "://".
Proof.
  intros Hx Hy a b E.
  assert (S : Segments "/" (x ++ "/" ++ y) [x; y])
    by (repeat split; [discriminate | now repeat constructor]).
  destruct (occurrence_empty_segment _ _ _ _ E S) as (la & lb & Na & Nb & El).
  apply (f_equal (@List.length string)) in El.
  rewrite List.length_app in El.
  destruct la; [now destruct Na|]. destruct lb; [now destruct Nb|].
  simpl in El. lia.
Qed.

Lemma NoOccurrence_three_segments (x y z : string) :
  byteFree "/" x -> byteFree "/" y -> byteFree "/" z -> y <> "" ->
  NoOccurrence (x ++ "/" ++ y ++ "/" ++ z) "://".
Proof.
  intros Hx Hy Hz Ny a b E.
  assert (S : Segments "/" (x ++ "/" ++ y ++ "/" ++ z) [x; y; z])
    by (repeat split; [discriminate | now repeat constructor]).
  destruct (occurrence_empty_segment _ _ _ _ E S) as (la & lb & Na & Nb & El).
  destruct la as [|a0 la]; [now destruct Na|].
  destruct la as [|a1 la].
  - simpl in El. injection El as _ Ey _. now destruct Ny.
  - apply (f_equal (@List.length string)) in El.
    rewrite List.length_app in El.
    destruct lb; [now destruct Nb|]. simpl in El. lia.
Qed.

Lemma byteFree_concat_intro (c : ascii) (sep : string) (l : list string) :
  byteFree c sep -> Forall (byteFree c) l -> byteFree c (String.concat sep l).
Proof.
  intros Hsep. induction 1 as [|x l Hx Hl IH]; [reflexivity|].
  destruct l as [|y l]; [assumption|].
  change (String.concat sep (x :: y :: l))
    with (x ++ sep ++ String.concat sep (y :: l)).
  apply byteFree_app. split; [assumption|]. apply byteFree_app. now split.
Qed.

(** Segments without the native separator are left alone. *)
Lemma normalize_segments (l : list string) :
  Forall (byteFree (os.PathSeparator goos)) l ->
  normalize goos (String.concat "/" l) = String.concat "/" l.
Proof.
  intros H. destruct goos; [apply normalize_unix|].
  apply normalize_byteFree. now apply byteFree_concat_intro.
Qed.

(** The parser on a string whose scheme, segments, repository and tag
    are known. *)
Lemma ParseModelPath_known (raw scheme rest : string) (segs : list string)
      (reg ns repo tag : string) :
  FirstCut raw "://" scheme rest
  \/ (NoOccurrence raw "://" /\ rest = raw /\ scheme = DefaultProtocolScheme) ->
  segs <> [] ->
  Forall (separatorFree goos) segs ->
  rest = String.concat "/" segs ->
  assignSegments segs reg ns (repo ++ ":" ++ tag) ->
  byteFree ":" repo ->
  ParseModelPath goos raw = mkModelPath scheme reg ns repo tag.
Proof.
  intros H1 Hne Hfree -> HA Hc. apply ParseSteps_ParseModelPath.
  exists (String.concat "/" segs), segs, (repo ++ ":" ++ tag). simpl.
  split; [assumption|]. split; [|split; [assumption|]].
  - rewrite normalize_segments.
    + repeat split; [assumption|].
      apply Forall_forall. intros x Hx.
      now apply (proj1 (Forall_forall _ _) Hfree).
    + apply Forall_forall. intros x Hx.
      now apply (proj1 (Forall_forall _ _) Hfree).
  - left. now apply (FirstCut_byte ":"%char).
Qed.

End RoundTrips.

Section RoundTripTheorems.

Variable goos : GOOS.

Lemma separatorFree_repo_tag (repo tag : string) :
  separatorFree goos repo -> separatorFree goos tag ->
  separatorFree goos (repo ++ ":" ++ tag).
Proof.
  intros [R1 R2] [T1 T2]. split; apply byteFree_app; split; try assumption;
    apply byteFree_app; split; try assumption; destruct goos; reflexivity.
Qed.

Lemma set_ProtocolScheme_eta (mp : ModelPath) (scheme : string) :
  mkModelPath scheme (Registry mp) (Namespace mp) (Repository mp) (Tag mp)
  = set_ProtocolScheme scheme mp.
Proof. reflexivity. Qed.

(** The full shape parses to its fields, after a scheme or without
    one. *)
Lemma ParseModelPath_full_shape (raw scheme : string) (mp : ModelPath) :
  WellFormed goos mp ->
  FirstCut raw "://" scheme (shapeRegistryNamespaceRepositoryTag mp)
  \/ (NoOccurrence raw "://" /\ shapeRegistryNamespaceRepositoryTag mp = raw
      /\ scheme = DefaultProtocolScheme) ->
  ParseModelPath goos raw = set_ProtocolScheme scheme mp.
Proof.
  intros (R & N & P & T & C) H.
  rewrite <- set_ProtocolScheme_eta.
  apply (ParseModelPath_known goos raw scheme
           (shapeRegistryNamespaceRepositoryTag mp)
           [Registry mp; Namespace mp; Repository mp ++ ":" ++ Tag mp]);
    [assumption | discriminate | | reflexivity | now repeat split | assumption].
  constructor; [assumption|]. constructor; [assumption|].
  constructor; [|constructor]. now apply separatorFree_repo_tag.
Qed.

Lemma ParseModelPath_GetFullTagname_WellFormed (mp : ModelPath) :
  WellFormed goos mp -> Namespace mp <> "" ->
  ParseModelPath goos (GetFullTagname mp)
  = set_ProtocolScheme DefaultProtocolScheme mp.
Proof.
  intros W Hns. apply ParseModelPath_full_shape; [assumption|]. right.
  rewrite GetFullTagname_shape. split; [|now split].
  destruct W as ([R _] & [N _] & P & T & _).
  apply NoOccurrence_three_segments; try assumption.
  now apply separatorFree_repo_tag.
Qed.

Lemma ParseModelPath_GetShortTagname_WellFormed (mp : ModelPath) :
  WellFormed goos mp ->
  Registry mp = DefaultRegistry \/ Namespace mp <> "" ->
  ParseModelPath goos (GetShortTagname mp)
  = set_ProtocolScheme DefaultProtocolScheme mp.
Proof.
  intros W H. pose proof W as (R & N & P & T & C).
  pose proof (ParseModelPath_GetFullTagname_WellFormed mp W) as HF.
  rewrite GetFullTagname_shape in HF. rewrite GetShortTagname_cases.
  destruct (String.eqb_spec (Registry mp) DefaultRegistry) as [ER|ER].
  - destruct (String.eqb_spec (Namespace mp) DefaultNamespace) as [EN|EN].
    + unfold shapeRepositoryTag.
      rewrite ParseModelPath_bare by (apply C || apply P || apply T).
      unfold set_ProtocolScheme. now rewrite ER, EN.
    + rewrite <- set_ProtocolScheme_eta.
      apply (ParseModelPath_known goos _ _ (shapeNamespaceRepositoryTag mp)
               [Namespace mp; Repository mp ++ ":" ++ Tag mp]);
        [ | discriminate | | reflexivity | | assumption].
      * right. split; [|now split].
        apply NoOccurrence_two_segments; [apply N|].
        now apply separatorFree_repo_tag.
      * constructor; [assumption|]. constructor; [|constructor].
        now apply separatorFree_repo_tag.
      * simpl. now rewrite ER.
  - destruct H as [H|H]; [contradiction | now apply HF].
Qed.

End RoundTripTheorems.

(** X2.  An address whose fields hold no separator, whose repository
    holds no colon and whose scheme holds no slash is read back from its
    scheme, [://] and its full name: [ParseModelPath] returns every field
    as it was, and [BaseURL] of the result is the scheme and the
    registry. *)
Theorem ParseModelPath_scheme_GetFullTagname_round_trip
        (goos : GOOS) (mp : ModelPath) :
  WellFormed goos mp ->
  byteFree "/" (ProtocolScheme mp) ->
  ParseModelPath goos (ProtocolScheme mp ++ "://" ++ GetFullTagname mp) = mp
  /\ BaseURL (ParseModelPath goos (ProtocolScheme mp ++ "://" ++ GetFullTagname mp))
     = mkURL (ProtocolScheme mp) (Registry mp).
Proof.
  intros W S.
  assert (E : ParseModelPath goos (ProtocolScheme mp ++ "://" ++ GetFullTagname mp)
              = mp).
  { rewrite (ParseModelPath_full_shape goos _ (ProtocolScheme mp) mp W).
    - now destruct mp.
    - left. rewrite GetFullTagname_shape. now apply FirstCut_scheme. }
  rewrite E. now split.
Qed.

Lemma ParseModelPath_scheme_GetFullTagname_round_trip_witness :
  ParseModelPath windows
    (ProtocolScheme (mkModelPath "http" "localhost:5000" "" "llama3" "8b:q4")
     ++ "://"
     ++ GetFullTagname (mkModelPath "http" "localhost:5000" "" "llama3" "8b:q4"))
  = mkModelPath "http" "localhost:5000" "" "llama3" "8b:q4"
  /\ BaseURL
       (ParseModelPath windows
          (ProtocolScheme (mkModelPath "http" "localhost:5000" "" "llama3" "8b:q4")
           ++ "://"
           ++ GetFullTagname
                (mkModelPath "http" "localhost:5000" "" "llama3" "8b:q4")))
     = mkURL (ProtocolScheme (mkModelPath "http" "localhost:5000" "" "llama3" "8b:q4"))
             (Registry (mkModelPath "http" "localhost:5000" "" "llama3" "8b:q4")).
Proof.
  apply (ParseModelPath_scheme_GetFullTagname_round_trip windows
           (mkModelPath "http" "localhost:5000" "" "llama3" "8b:q4")).
  - unfold WellFormed, separatorFree. repeat split; reflexivity.
  - reflexivity.
Defined.

(** X3.  An address whose fields hold no separator and whose repository
    holds no colon is read back from its names, up to the scheme, which
    no name carries: parsing its full name gives the address under the
    default scheme when the namespace is not empty, and parsing its short
    name does when the namespace is not empty or the registry is the
    default one. *)
Theorem ParseModelPath_names_round_trip (goos : GOOS) (mp : ModelPath) :
  WellFormed goos mp ->
  (Namespace mp <> "" ->
   ParseModelPath goos (GetFullTagname mp)
   = set_ProtocolScheme DefaultProtocolScheme mp)
  /\ (Registry mp = DefaultRegistry \/ Namespace mp <> "" ->
      ParseModelPath goos (GetShortTagname mp)
      = set_ProtocolScheme DefaultProtocolScheme mp).
Proof.
  intros W. split.
  - now apply ParseModelPath_GetFullTagname_WellFormed.
  - now apply ParseModelPath_GetShortTagname_WellFormed.
Qed.

Lemma ParseModelPath_names_round_trip_witness :
  (Namespace (mkModelPath "http" "example.com" "ns" "repo" "v1") <> "" ->
   ParseModelPath unix
     (GetFullTagname (mkModelPath "http" "example.com" "ns" "repo" "v1"))
   = set_ProtocolScheme DefaultProtocolScheme
       (mkModelPath "http" "example.com" "ns" "repo" "v1"))
  /\ (Registry (mkModelPath "http" "example.com" "ns" "repo" "v1")
      = DefaultRegistry
      \/ Namespace (mkModelPath "http" "example.com" "ns" "repo" "v1") <> "" ->
      ParseModelPath unix
        (GetShortTagname (mkModelPath "http" "example.com" "ns" "repo" "v1"))
      = set_ProtocolScheme DefaultProtocolScheme
          (mkModelPath "http" "example.com" "ns" "repo" "v1")).
Proof.
  apply (ParseModelPath_names_round_trip unix
           (mkModelPath "http" "example.com" "ns" "repo" "v1")).
  unfold WellFormed, separatorFree. repeat split; reflexivity.
Defined.

(** Without the condition on the namespace the full name is not read
    back: a registry that ends in a colon, before an empty namespace,
    makes a [://]. *)
Example full_name_not_read_back :
  WellFormed unix (mkModelPath "https" "a:" "" "repo" "v1")
  /\ ParseModelPath unix (GetFullTagname (mkModelPath "https" "a:" "" "repo" "v1"))
     = mkModelPath "a" "registry.ollama.ai" "library" "repo" "v1".
Proof. unfold WellFormed, separatorFree. repeat split; reflexivity. Qed.

(** ** Names as keys *)

Lemma cut_byte_injective (c : ascii) (a b a' b' : string) :
  byteFree c a -> byteFree c a' ->
  a ++ byte c ++ b = a' ++ byte c ++ b' -> a = a' /\ b = b'.
Proof.
  intros Ha Ha' E.
  apply (FirstCut_unique (a ++ byte c ++ b) (byte c)).
  - now apply FirstCut_byte.
  - rewrite E. now apply FirstCut_byte.
Qed.

(** X4.  Two addresses whose registries and namespaces hold no slash and
    whose repositories hold no colon have the same full name only when
    they have the same registry, namespace, repository and tag. *)
Theorem GetFullTagname_injective (mp mp' : ModelPath) :
  byteFree "/" (Registry mp) -> byteFree "/" (Namespace mp) ->
  byteFree ":" (Repository mp) ->
  byteFree "/" (Registry mp') -> byteFree "/" (Namespace mp') ->
  byteFree ":" (Repository mp') ->
  GetFullTagname mp = GetFullTagname mp' ->
  Registry mp = Registry mp' /\ Namespace mp = Namespace mp'
  /\ Repository mp = Repository mp' /\ Tag mp = Tag mp'.
Proof.
  intros R N P R' N' P' E. rewrite !GetFullTagname_shape in E.
  unfold shapeRegistryNamespaceRepositoryTag in E.
  apply (cut_byte_injective "/"%char) in E as [ER E]; try assumption.
  apply (cut_byte_injective "/"%char) in E as [EN E]; try assumption.
  apply (cut_byte_injective ":"%char) in E as [EP ET]; try assumption.
  now repeat split.
Qed.

Lemma GetFullTagname_injective_witness :
  Registry (ParseModelPath unix "example.com/ns/repo:v1")
  = Registry (mkModelPath "http" "example.com" "ns" "repo" "v1")
  /\ Namespace (ParseModelPath unix "example.com/ns/repo:v1")
     = Namespace (mkModelPath "http" "example.com" "ns" "repo" "v1")
  /\ Repository (ParseModelPath unix "example.com/ns/repo:v1")
     = Repository (mkModelPath "http" "example.com" "ns" "repo" "v1")
  /\ Tag (ParseModelPath unix "example.com/ns/repo:v1")
     = Tag (mkModelPath "http" "example.com" "ns" "repo" "v1").
Proof.
  apply (GetFullTagname_injective
           (ParseModelPath unix "example.com/ns/repo:v1")
           (mkModelPath "http" "example.com" "ns" "repo" "v1"));
    reflexivity.
Defined.

(** X5.  [GetNamespaceRepository] tells apart any two addresses whose
    namespaces hold no slash: the same key means the same namespace and
    the same repository. *)
Theorem GetNamespaceRepository_injective (mp mp' : ModelPath) :
  byteFree "/" (Namespace mp) -> byteFree "/" (Namespace mp') ->
  GetNamespaceRepository mp = GetNamespaceRepository mp' ->
  Namespace mp = Namespace mp' /\ Repository mp = Repository mp'.
Proof.
  intros N N' E. unfold GetNamespaceRepository in E. simpl in E.
  rewrite !append_nil_r in E.
  now apply (cut_byte_injective "/"%char) in E.
Qed.

Lemma GetNamespaceRepository_injective_witness :
  Namespace (ParseModelPath unix "ns/repo:v1")
  = Namespace (mkModelPath "http" "example.com" "ns" "repo" "v2")
  /\ Repository (ParseModelPath unix "ns/repo:v1")
     = Repository (mkModelPath "http" "example.com" "ns" "repo" "v2").
Proof.
  apply (GetNamespaceRepository_injective
           (ParseModelPath unix "ns/repo:v1")
           (mkModelPath "http" "example.com" "ns" "repo" "v2"));
    reflexivity.
Defined.

(** A namespace with a slash in it breaks the key. *)
Example GetNamespaceRepository_collision :
  GetNamespaceRepository (mkModelPath "https" "r" "a/b" "c" "t")
  = GetNamespaceRepository (mkModelPath "https" "r" "a" "b/c" "t").
Proof. reflexivity. Qed.

(** X6.  Two addresses under the same scheme, whose fields hold no
    separator, whose repositories hold no colon and whose namespaces are
    not empty, have the same short name only when they are the same
    address: eliding the defaults loses nothing. *)
Theorem GetShortTagname_injective (goos : GOOS) (mp mp' : ModelPath) :
  WellFormed goos mp -> WellFormed goos mp' ->
  Namespace mp <> "" -> Namespace mp' <> "" ->
  ProtocolScheme mp = ProtocolScheme mp' ->
  GetShortTagname mp = GetShortTagname mp' ->
  mp = mp'.
Proof.
  intros W W' N N' ES E.
  pose proof (ParseModelPath_GetShortTagname_WellFormed goos mp W (or_intror N)) as H.
  pose proof (ParseModelPath_GetShortTagname_WellFormed goos mp' W' (or_intror N'))
    as H'.
  rewrite E, H' in H. destruct mp, mp'; simpl in *.
  unfold set_ProtocolScheme in H. simpl in H. congruence.
Qed.

Lemma GetShortTagname_injective_witness :
  ParseModelPath unix "llama3" = ParseModelPath unix "library/llama3:latest".
Proof.
  apply (GetShortTagname_injective unix
           (ParseModelPath unix "llama3")
           (ParseModelPath unix "library/llama3:latest"));
    try reflexivity; try discriminate;
    unfold WellFormed, separatorFree; repeat split; reflexivity.
Defined.

(** X7.  The short name of an address is the end of its full name: what
    is missing in front is nothing, the default registry and a slash, or
    the default registry, the default namespace and their slashes. *)
Theorem GetShortTagname_suffix_of_GetFullTagname (mp : ModelPath) :
  GetFullTagname mp = GetShortTagname mp
  \/ GetFullTagname mp = DefaultRegistry ++ "/" ++ GetShortTagname mp
  \/ GetFullTagname mp
     = DefaultRegistry ++ "/" ++ DefaultNamespace ++ "/" ++ GetShortTagname mp.
Proof.
  rewrite GetFullTagname_shape, GetShortTagname_cases.
  unfold shapeRegistryNamespaceRepositoryTag.
  destruct (String.eqb_spec (Registry mp) DefaultRegistry) as [ER|ER];
    [|now left].
  destruct (String.eqb_spec (Namespace mp) DefaultNamespace) as [EN|EN];
    rewrite ER; [right; right; now rewrite EN | right; now left].
Qed.

(** ** Which identifiers are accepted *)

Lemma Segments_length (c : ascii) (l : list string) :
  forall s, Segments c s l -> List.length l = S (countByte c s).
Proof.
  induction l as [|a l IH]; intros s (Hne & Hall & ->); [now destruct Hne|].
  inversion Hall as [|? ? Ha Hl]; subst.
  destruct l as [|b l].
  - simpl. now rewrite (proj2 (countByte_byteFree c a) Ha).
  - change (String.concat (byte c) (a :: b :: l))
      with (a ++ byte c ++ String.concat (byte c) (b :: l)).
    rewrite !countByte_app, (proj2 (countByte_byteFree c a) Ha).
    assert (L : List.length (b :: l)
                = S (countByte c (String.concat (byte c) (b :: l))))
      by (apply IH; repeat split; [discriminate | assumption]).
    change (countByte c (byte c)) with ((if Ascii.eqb c c then 1 else 0) + 0).
    rewrite Ascii.eqb_refl. simpl List.length in *. lia.
Qed.

(** X8.  An identifier with three slashes or more after its scheme, once
    the native separators are rewritten, names nothing: [ParseModelPath]
    returns the scheme with the default registry, namespace and tag and
    an empty repository, and [Validate] refuses the address because the
    repository name is required.  The segments are dropped, not
    reported. *)
Theorem ParseModelPath_too_many_segments (goos : GOOS) (raw scheme rest : string) :
  FirstCut raw "://" scheme rest
  \/ (NoOccurrence raw "://" /\ rest = raw /\ scheme = DefaultProtocolScheme) ->
  3 <= countByte "/" (normalize goos rest) ->
  ParseModelPath goos raw
  = mkModelPath scheme DefaultRegistry DefaultNamespace "" DefaultTag
  /\ Validate (ParseModelPath goos raw) = Some errRepositoryRequired.
Proof.
  intros H1 H3.
  assert (E : ParseModelPath goos raw
              = mkModelPath scheme DefaultRegistry DefaultNamespace "" DefaultTag).
  { apply ParseSteps_ParseModelPath.
    destruct (Segments_exist "/" (normalize goos rest)) as (segs & HS).
    pose proof (Segments_length _ _ _ HS) as L.
    exists rest, segs, "". simpl.
    split; [assumption|]. split; [assumption|]. split.
    - destruct segs as [|a [|b [|c [|d l]]]]; simpl in L; try lia;
        now repeat split.
    - right. split; [|now split]. now apply (NoOccurrence_byteFree ":"%char). }
  rewrite E. now split.
Qed.

Lemma ParseModelPath_too_many_segments_witness :
  ParseModelPath windows "http://example.com\mirror/ns/repo:v1"
  = mkModelPath "http" DefaultRegistry DefaultNamespace "" DefaultTag
  /\ Validate (ParseModelPath windows "http://example.com\mirror/ns/repo:v1")
     = Some errRepositoryRequired.
Proof.
  apply (ParseModelPath_too_many_segments windows
           "http://example.com\mirror/ns/repo:v1" "http"
           "example.com\mirror/ns/repo:v1").
  - left. apply Cut_found. reflexivity.
  - vm_compute. lia.
Defined.

Lemma cutTag_cases (mp : ModelPath) :
  (byteFree ":" (Repository mp) /\ cutTag mp = mp)
  \/ exists repo tag,
      Repository mp = repo ++ ":" ++ tag /\ byteFree ":" repo
      /\ cutTag mp = set_Tag tag (set_Repository repo mp).
Proof.
  unfold cutTag.
  destruct (byte_cases ":" (Repository mp)) as [H|(repo & tag & E & H)].
  - left. split; [assumption|]. now rewrite (Cut_byteFree ":"%char).
  - right. exists repo, tag. rewrite E.
    split; [reflexivity|]. split; [assumption|].
    now rewrite (Cut_byte ":"%char).
Qed.

Lemma HasPrefix_byte (c : ascii) (s : string) :
  strings.HasPrefix s (byte c) = true <-> exists t, s = String c t.
Proof. rewrite HasPrefix_iff. reflexivity. Qed.

(** X9.  The address that [ParseModelPath] returns passes [Validate]
    exactly when the segment that names the repository is not empty, does
    not begin with a colon, and holds one colon at most. *)
Theorem Validate_ParseModelPath (goos : GOOS) (raw : string) :
  Validate (ParseModelPath goos raw) = None
  <-> Repository (parseSegments goos raw) <> ""
      /\ strings.HasPrefix (Repository (parseSegments goos raw)) ":" = false
      /\ countByte ":" (Repository (parseSegments goos raw)) <= 1.
Proof.
  rewrite ParseModelPath_halves, Validate_cases.
  set (mp := parseSegments goos raw).
  destruct (cutTag_cases mp) as [[H ->]|(repo & tag & E & H & ->)].
  - assert (T : hasByte ":" (Tag mp) = false)
      by (subst mp; unfold parseSegments;
          destruct (strings.Cut raw "://") as [[? ?] [|]];
          destruct (strings.Split _ "/") as [|a [|b [|c [|d l]]]]; reflexivity).
    rewrite T, (proj2 (countByte_byteFree _ _) H).
    destruct (String.eqb_spec (Repository mp) "") as [E|E].
    + split; [discriminate | now intros [N _]].
    + split; [|reflexivity]. intros _. split; [assumption|]. split; [|lia].
      destruct (strings.HasPrefix (Repository mp) ":") eqn:P; [|reflexivity].
      apply (HasPrefix_byte ":"%char) in P as [t P]. rewrite P in H.
      discriminate.
  - rewrite E. cbn [Repository Tag set_Tag set_Repository].
    rewrite !countByte_app. rewrite (proj2 (countByte_byteFree _ _) H).
    cbn [countByte byte Ascii.eqb]. simpl Nat.add.
    destruct (String.eqb_spec repo "") as [->|N].
    + split; [discriminate|]. now intros (_ & P & _).
    + destruct (hasByte ":" tag) eqn:T.
      * split; [discriminate|]. intros (_ & _ & L).
        assert (Z : countByte ":" tag = 0) by (simpl in L; lia).
        apply countByte_byteFree in Z. congruence.
      * split; [|reflexivity]. intros _. split; [|split].
        -- destruct repo; [now destruct N | discriminate].
        -- destruct repo as [|x repo]; [now destruct N|].
           simpl. apply orb_false_iff in H as [H _].
           unfold byte. simpl in H. now rewrite H.
        -- rewrite (proj2 (countByte_byteFree _ _) T). simpl. lia.
Qed.

(** ** Native separators and bare names *)

Lemma normalize_idempotent (goos : GOOS) (s : string) :
  normalize goos (normalize goos s) = normalize goos s.
Proof.
  destruct goos; [now rewrite !normalize_unix|].
  apply normalize_byteFree. now apply (replaceByte_removes "\"%char "/"%char).
Qed.

(** Two strings with the same scheme, whose remainders are the same once
    normalised, parse to the same address. *)
Lemma ParseModelPath_same_remainder (goos : GOOS)
      (raw raw' scheme rest rest' : string) :
  FirstCut raw "://" scheme rest
  \/ (NoOccurrence raw "://" /\ rest = raw /\ scheme = DefaultProtocolScheme) ->
  FirstCut raw' "://" scheme rest'
  \/ (NoOccurrence raw' "://" /\ rest' = raw' /\ scheme = DefaultProtocolScheme) ->
  normalize goos rest = normalize goos rest' ->
  ParseModelPath goos raw = ParseModelPath goos raw'.
Proof.
  intros H H' E. apply ParseSteps_ParseModelPath.
  destruct (ParseModelPath_steps goos raw')
    as (rest'' & segs & repo0 & H1 & H2 & H3 & H4).
  assert (K : rest'' = rest' /\ ProtocolScheme (ParseModelPath goos raw') = scheme).
  { destruct H1 as [F|(N & -> & ->)], H' as [F'|(N' & -> & ->)].
    - destruct (FirstCut_unique _ _ _ _ _ _ F F'). now split.
    - destruct (FirstCut_NoOccurrence _ _ _ _ F N').
    - destruct (FirstCut_NoOccurrence _ _ _ _ F' N).
    - now split. }
  destruct K as [-> K]. exists rest, segs, repo0.
  rewrite K, E.
  split; [|split; [assumption | split; assumption]].
  destruct H as [F|(N & -> & ->)]; [now left | right; now repeat split].
Qed.

(** X10.  The native path separators of an identifier and slashes are
    read alike: after a scheme without a slash, and in an identifier
    without [://] in either spelling, [ParseModelPath] returns the same
    address for the identifier and for the identifier with its native
    separators rewritten to slashes. *)
Theorem ParseModelPath_native_separators (goos : GOOS) (scheme rest : string) :
  (byteFree "/" scheme ->
   ParseModelPath goos (scheme ++ "://" ++ rest)
   = ParseModelPath goos (scheme ++ "://" ++ normalize goos rest))
  /\ (NoOccurrence rest "://" -> NoOccurrence (normalize goos rest) "://" ->
      ParseModelPath goos rest = ParseModelPath goos (normalize goos rest)).
Proof.
  split.
  - intros S.
    apply (ParseModelPath_same_remainder goos _ _ scheme rest (normalize goos rest));
      [left; now apply FirstCut_scheme | left; now apply FirstCut_scheme |].
    now rewrite normalize_idempotent.
  - intros N N'.
    apply (ParseModelPath_same_remainder goos _ _ DefaultProtocolScheme
             rest (normalize goos rest));
      [right; now repeat split | right; now repeat split |].
    now rewrite normalize_idempotent.
Qed.

Example parse_native_separators :
  ParseModelPath windows "https://example.com\ns\repo:v1"
  = ParseModelPath windows "https://example.com/ns/repo:v1"
  /\ ParseModelPath windows "ns\repo" = ParseModelPath windows "ns/repo"
  /\ ParseModelPath windows "ns/repo" = mkModelPath "https" DefaultRegistry "ns" "repo" "latest".
Proof. repeat split. Qed.

(** The two spellings differ where the rewriting makes a [://]. *)
Example parse_native_separators_scheme :
  ParseModelPath windows "a:\/b" = mkModelPath "https" "a:" "" "b" "latest"
  /\ ParseModelPath windows (normalize windows "a:\/b")
     = mkModelPath "a" DefaultRegistry DefaultNamespace "b" "latest".
Proof. repeat split. Qed.

(** X11.  An identifier without a separator and without a colon is a
    repository name and nothing else: [ParseModelPath] puts it under the
    default scheme, registry and namespace with the tag [latest], its
    short name is the identifier followed by [:latest], and its full name
    is that after [registry.ollama.ai/library/]. *)
Theorem ParseModelPath_bare_name (goos : GOOS) (raw : string) :
  separatorFree goos raw ->
  byteFree ":" raw ->
  ParseModelPath goos raw
  = mkModelPath DefaultProtocolScheme DefaultRegistry DefaultNamespace raw DefaultTag
  /\ GetShortTagname (ParseModelPath goos raw) = raw ++ ":latest"
  /\ GetFullTagname (ParseModelPath goos raw)
     = "registry.ollama.ai/library/" ++ raw ++ ":latest".
Proof.
  intros [S S'] C.
  assert (E : ParseModelPath goos raw
              = mkModelPath DefaultProtocolScheme DefaultRegistry DefaultNamespace
                            raw DefaultTag).
  { apply ParseSteps_ParseModelPath. exists raw, [raw], raw. simpl.
    split; [right; split; [|now split]|].
    - now apply (byteFree_NoOccurrence "/"%char).
    - split; [|split; [now repeat split|]].
      + rewrite normalize_byteFree by assumption.
        repeat split; [discriminate | now repeat constructor].
      + right. split; [|now split]. now apply (NoOccurrence_byteFree ":"%char). }
  rewrite E. split; [reflexivity|]. split.
  - rewrite GetShortTagname_cases. reflexivity.
  - rewrite GetFullTagname_shape. reflexivity.
Qed.

Lemma ParseModelPath_bare_name_witness :
  ParseModelPath windows "llama3"
  = mkModelPath DefaultProtocolScheme DefaultRegistry DefaultNamespace
                "llama3" DefaultTag
  /\ GetShortTagname (ParseModelPath windows "llama3") = "llama3" ++ ":latest"
  /\ GetFullTagname (ParseModelPath windows "llama3")
     = "registry.ollama.ai/library/" ++ "llama3" ++ ":latest".
Proof.
  apply (ParseModelPath_bare_name windows "llama3");
    [split; reflexivity | reflexivity].
Defined.

(** * Further properties of the path resolvers *)

Lemma Sha256Digest_prefixed (sep : ascii) (h : string) :
  sep = ":"%char \/ sep = "-"%char ->
  Sha256Digest ("sha256" ++ String sep h)
  <-> String.length h = 64 /\ allBytes hexDigit h = true.
Proof.
  intros Hsep. split.
  - intros (sep' & hex & E & _ & L & A).
    apply append_inv_head in E. injection E as _ <-. now split.
  - intros [L A]. exists sep, h. now repeat split.
Qed.

Lemma bool_eq_iff (a b : bool) : (a = true <-> b = true) -> a = b.
Proof.
  destruct a, b; intros [H1 H2]; try reflexivity.
  - symmetry. now apply H1.
  - now apply H2.
Qed.

(** X12.  The digest with a colon and the digest with a dash are one to
    [GetBlobsPath]: on every machine and for every text after [sha256]
    and the separator, the two calls return the same path or the same
    error and leave the same state. *)
Theorem GetBlobsPath_colon_dash {W : Type} (host : Platform W) (w : W) (h : string) :
  GetBlobsPath host ("sha256:" ++ h) w = GetBlobsPath host ("sha256-" ++ h) w.
Proof.
  destruct (modelsDir host w) as [root [e|]] eqn:E.
  - unfold GetBlobsPath. now rewrite E.
  - rewrite !(GetBlobsPath_cases host _ w root E). cbv zeta.
    change (String.eqb ("sha256:" ++ h) "") with false.
    change (String.eqb ("sha256-" ++ h) "") with false. cbv iota.
    assert (M : regexp.MatchString blobDigestRegEx ("sha256:" ++ h)
                = regexp.MatchString blobDigestRegEx ("sha256-" ++ h)).
    { apply bool_eq_iff. rewrite !blobDigestRegEx_Sha256Digest.
      rewrite (Sha256Digest_prefixed ":"%char h) by now left.
      rewrite (Sha256Digest_prefixed "-"%char h) by now right.
      reflexivity. }
    rewrite <- M.
    destruct (regexp.MatchString blobDigestRegEx ("sha256:" ++ h)) eqn:V;
      [|reflexivity].
    apply blobDigestRegEx_Sha256Digest in V.
    apply (Sha256Digest_prefixed ":"%char h) in V as [_ A]; [|now left].
    change ("sha256:" ++ h) with ("sha256" ++ String ":" h).
    change ("sha256-" ++ h) with ("sha256" ++ String "-" h).
    rewrite (ReplaceAll_digest ":"%char h) by (auto; now left).
    rewrite (ReplaceAll_digest "-"%char h) by (auto; now right).
    reflexivity.
Qed.

(** X13.  The resolvers return the empty path with every error.  Of
    [GetBlobsPath] moreover: a store root that is not found is reported
    whatever the digest, so before the digest is looked at, and the error
    of an invalid digest format means that the store root was found and
    that the state is as it was. *)
Theorem resolvers_errors {W : Type} (host : Platform W) (w : W)
        (mp : ModelPath) (digest : string) :
  (snd (modelsDir host w) <> None -> fst (modelsDir host w) = "")
  /\ (snd (fst (ModelPath_GetManifestPath host mp w)) <> None ->
      fst (fst (ModelPath_GetManifestPath host mp w)) = "")
  /\ (snd (fst (GetManifestPath host w)) <> None ->
      fst (fst (GetManifestPath host w)) = "")
  /\ (snd (fst (GetBlobsPath host digest w)) <> None ->
      fst (fst (GetBlobsPath host digest w)) = "")
  /\ (forall e, snd (modelsDir host w) = Some e ->
                GetBlobsPath host digest w = (("", Some e), w))
  /\ (snd (fst (GetBlobsPath host digest w)) = Some ErrInvalidDigestFormat ->
      snd (modelsDir host w) = None /\ snd (GetBlobsPath host digest w) = w).
Proof.
  assert (C : forall dir path,
             snd (fst (createThenReturn host dir path w)) <> None ->
             fst (fst (createThenReturn host dir path w)) = "").
  { intros dir path. unfold createThenReturn.
    now destruct (MkdirAll host dir 493 w) as [[e|] w']. }
  split; [|split; [|split; [|split; [|split]]]].
  - unfold modelsDir. destruct (LookupEnv host "OLLAMA_MODELS" w); [easy|].
    now destruct (UserHomeDir host w) as [home [e|]].
  - unfold ModelPath_GetManifestPath.
    now destruct (modelsDir host w) as [root [e|]].
  - destruct (modelsDir host w) as [root [e|]] eqn:E.
    + unfold GetManifestPath. now rewrite E.
    + rewrite (GetManifestPath_cases host w root E). apply C.
  - destruct (modelsDir host w) as [root [e|]] eqn:E.
    + unfold GetBlobsPath. now rewrite E.
    + rewrite (GetBlobsPath_cases host digest w root E). cbv zeta.
      destruct (String.eqb digest ""); [apply C|].
      destruct (regexp.MatchString blobDigestRegEx digest); [apply C | easy].
  - intros e E. unfold GetBlobsPath.
    destruct (modelsDir host w) as [root o]. simpl in E. now rewrite E.
  - destruct (modelsDir host w) as [root [e|]] eqn:E.
    + unfold GetBlobsPath. rewrite E. simpl. intros [= ->].
      exfalso. revert E. unfold modelsDir.
      destruct (LookupEnv host "OLLAMA_MODELS" w); [discriminate|].
      destruct (UserHomeDir host w) as [home [e|]]; discriminate.
    + rewrite (GetBlobsPath_cases host digest w root E). cbv zeta.
      destruct (String.eqb digest "").
      * intros H. now apply createThenReturn_error in H.
      * destruct (regexp.MatchString blobDigestRegEx digest); [|easy].
        intros H. now apply createThenReturn_error in H.
Qed.

Example GetBlobsPath_homeless :
  GetBlobsPath unixhost.host "not a digest" exampleHomeless
  = (("", Some (osError (oserror.errorString "$HOME is not defined"))),
     exampleHomeless).
Proof. reflexivity. Qed.

(** The blobs directory cannot be made where a file has its name. *)
Example GetBlobsPath_not_a_directory :
  GetBlobsPath unixhost.host ("sha256:" ++ exampleHex) exampleOverride
  = (("", Some (osError (oserror.PathError "mkdir" "/srv/models/blobs"
                                            "not a directory"))),
     exampleOverride).
Proof. reflexivity. Qed.
